(** * PrintCanvas: the layout model of the print-preview editor

    A shallow embedding of [src/PrintCanvas.js] (of the two versions that
    the file holds, the later one, with text annotations) and of the two
    selectors of [src/App.js].

    JavaScript numbers are binary64 floating-point numbers.  The state of
    the component is modelled with exact rationals [Q] in their place: this
    is used for what does not depend on rounding (which elements a handler
    touches, which expression it stores, where a group is put).  What the
    arithmetic of an upload yields is stated in [B64], where the same
    expressions are evaluated with the binary64 operations.  Integers that
    the code only ever produces as integers (list lengths, ids, grid sizes,
    pixel sizes of a decoded bitmap, grid rows and columns) are [nat] or
    [Z].

    React state is modelled by one record, [Render], holding the bindings
    that one render of [PrintCanvas] puts in scope of its handlers.  Every
    handler is a function from the bindings of the render that created it
    to the bindings of the next render.  The only callback that outlives
    its render is [img.onload] of [handleFileUpload]: it reads the render
    in which the file was chosen and appends, by a functional update, to
    the image list of the render in which it fires. *)

From Stdlib Require Import ZArith QArith Qminmax Qround Qabs Lqa Lia String.
From Stdlib Require Floats.
From stdpp Require Import list strings pretty.

(** ** Data model *)

Inductive PageSize := A4 | A3.
Inductive Orientation := portrait | landscape.
Inductive PrintMode := ScaledPrint | PECS.

#[global] Instance PrintMode_eq_dec : EqDecision PrintMode.
Proof. solve_decision. Defined.

Module Dim.
Record t := mk { width : Q; height : Q }.
End Dim.

(** [PAGE_SIZES], in millimetres. *)
Definition PAGE_SIZES (p : PageSize) : Dim.t :=
  match p with
  | A4 => Dim.mk 210 297
  | A3 => Dim.mk 297 420
  end.

(** A decoded [window.Image]: only its pixel size is read. *)
Module Bitmap.
Record t := mk { width : Z; height : Z }.
End Bitmap.

Record GridSize := mkGrid { rows : Z; cols : Z }.
Record GridPos := mkPos { row : Z; col : Z }.

(** An element of [images]. *)
Module Img.
Record t := mk {
  id : nat;
  src : Bitmap.t;
  x : Q;
  y : Q;
  width : Q;
  height : Q;
  gridPos : GridPos
}.

(** [{ ...img, x: x', y: y' }] *)
Definition with_xy (x' y' : Q) (i : t) : t :=
  mk (id i) (src i) x' y' (width i) (height i) (gridPos i).

(** [{ ...img, width: img.width * f, height: img.height * f }] *)
Definition scaled (f : Q) (i : t) : t :=
  mk (id i) (src i) (x i) (y i) (width i * f)%Q (height i * f)%Q (gridPos i).
End Img.

(** An element of [texts]. *)
Module Txt.
Record t := mk {
  id : nat;
  x : Q;
  y : Q;
  text : string;
  width : Q;
  rotation : Q
}.

(** The partial objects handed to [handleTextChange]. *)
Record attrs := mkAttrs {
  ax : option Q;
  ay : option Q;
  arotation : option Q;
  awidth : option Q
}.

(** [{ ...txt, ...newAttrs }] *)
Definition merge (a : attrs) (t0 : t) : t :=
  mk (id t0)
     (default (x t0) (ax a))
     (default (y t0) (ay a))
     (text t0)
     (default (width t0) (awidth a))
     (default (rotation t0) (arotation a)).

(** [{ ...txt, text: newText }] *)
Definition with_text (s : string) (t0 : t) : t :=
  mk (id t0) (x t0) (y t0) s (width t0) (rotation t0).
End Txt.

(** [contextMenu] when it is not [null]: the client position of the click. *)
Module Menu.
Record t := mk { x : Z; y : Z }.
End Menu.

(** The bindings of one render of [PrintCanvas]: its two props and its
    seven pieces of state. *)
Record Render := mkRender {
  pageSize : PageSize;
  orientation : Orientation;
  images : list Img.t;
  texts : list Txt.t;
  selectedImage : option nat;
  selectedText : option nat;
  printMode : PrintMode;
  gridSize : GridSize;
  contextMenu : option Menu.t
}.

(** The state setters. *)
Definition setImages (l : list Img.t) (r : Render) : Render :=
  mkRender (pageSize r) (orientation r) l (texts r) (selectedImage r)
           (selectedText r) (printMode r) (gridSize r) (contextMenu r).
Definition setTexts (l : list Txt.t) (r : Render) : Render :=
  mkRender (pageSize r) (orientation r) (images r) l (selectedImage r)
           (selectedText r) (printMode r) (gridSize r) (contextMenu r).
Definition setSelectedImage (s : option nat) (r : Render) : Render :=
  mkRender (pageSize r) (orientation r) (images r) (texts r) s
           (selectedText r) (printMode r) (gridSize r) (contextMenu r).
Definition setSelectedText (s : option nat) (r : Render) : Render :=
  mkRender (pageSize r) (orientation r) (images r) (texts r) (selectedImage r)
           s (printMode r) (gridSize r) (contextMenu r).
Definition setPrintMode (m : PrintMode) (r : Render) : Render :=
  mkRender (pageSize r) (orientation r) (images r) (texts r) (selectedImage r)
           (selectedText r) m (gridSize r) (contextMenu r).
Definition setGridSize (g : GridSize) (r : Render) : Render :=
  mkRender (pageSize r) (orientation r) (images r) (texts r) (selectedImage r)
           (selectedText r) (printMode r) g (contextMenu r).
Definition setContextMenu (c : option Menu.t) (r : Render) : Render :=
  mkRender (pageSize r) (orientation r) (images r) (texts r) (selectedImage r)
           (selectedText r) (printMode r) (gridSize r) c.
(** The setters of [App], which re-render [PrintCanvas] with new props. *)
Definition setPageSize (p : PageSize) (r : Render) : Render :=
  mkRender p (orientation r) (images r) (texts r) (selectedImage r)
           (selectedText r) (printMode r) (gridSize r) (contextMenu r).
Definition setOrientation (o : Orientation) (r : Render) : Render :=
  mkRender (pageSize r) o (images r) (texts r) (selectedImage r)
           (selectedText r) (printMode r) (gridSize r) (contextMenu r).

(** The first render: [useState] defaults, and the defaults of [App]. *)
Definition initial : Render :=
  mkRender A4 portrait [] [] None None ScaledPrint (mkGrid 3 4) None.

(** ** Geometry computed on every render *)

Definition baseDimensions (r : Render) : Dim.t := PAGE_SIZES (pageSize r).

Definition canvasDimensions (r : Render) : Dim.t :=
  match orientation r with
  | portrait => Dim.mk (Dim.width (baseDimensions r)) (Dim.height (baseDimensions r))
  | landscape => Dim.mk (Dim.height (baseDimensions r)) (Dim.width (baseDimensions r))
  end.

Definition cellWidth (r : Render) : Q :=
  (Dim.width (canvasDimensions r) / inject_Z (cols (gridSize r)))%Q.
Definition cellHeight (r : Render) : Q :=
  (Dim.height (canvasDimensions r) / inject_Z (rows (gridSize r)))%Q.

(** ** [handleFileUpload] *)

Section Upload.
(** [r] is the render whose [handleFileUpload] received the file; [img] is
    the decoded bitmap handed to [img.onload]. *)
Variable r : Render.
Variable img : Bitmap.t.

Definition scale : Q :=
    match printMode r with
    | ScaledPrint =>
        Qmin (Dim.width (canvasDimensions r) / inject_Z (Bitmap.width img))
             (Dim.height (canvasDimensions r) / inject_Z (Bitmap.height img))
    | PECS =>
        Qmin (cellWidth r / inject_Z (Bitmap.width img))
             (cellHeight r / inject_Z (Bitmap.height img))
    end.

Definition width : Q := (inject_Z (Bitmap.width img) * scale)%Q.
Definition height : Q := (inject_Z (Bitmap.height img) * scale)%Q.

(** The object literal [newImage].  [Math.floor] of the quotient is
    [Qfloor]; [%] on integers is the truncating remainder [Z.rem]. *)
Definition newImage : Img.t :=
    {| Img.id := length (images r);
       Img.src := img;
       Img.x := match printMode r with
                | ScaledPrint => (Dim.width (canvasDimensions r) - width) / 2
                | PECS => (cellWidth r - width) / 2
                end%Q;
       Img.y := match printMode r with
                | ScaledPrint => (Dim.height (canvasDimensions r) - height) / 2
                | PECS => (cellHeight r - height) / 2
                end%Q;
       Img.width := width;
       Img.height := height;
       Img.gridPos :=
         {| row := Qfloor (inject_Z (Z.of_nat (length (images r)))
                           / inject_Z (cols (gridSize r)));
            col := Z.rem (Z.of_nat (length (images r))) (cols (gridSize r)) |} |}.
End Upload.

(** The synchronous part of [handleFileUpload]: [setImages([])]. *)
Definition handleFileUpload (r : Render) : Render := setImages [] r.

(** [img.onload]: [setImages((prevImages) => [...prevImages, newImage])],
    where [newImage] is built from the render [r] that started the upload
    and [prevImages] is the list of the render [cur] in which it fires. *)
Definition img_onload (r : Render) (img : Bitmap.t) (cur : Render) : Render :=
  setImages (images cur ++ [newImage r img]) cur.

(** ** Selection, deletion and zoom *)

Definition handleSelectImage (id : nat) (r : Render) : Render :=
  setSelectedText None (setSelectedImage (Some id) r).

Definition handleSelectText (id : nat) (r : Render) : Render :=
  setSelectedImage None (setSelectedText (Some id) r).

Definition deleteSelectedImage (r : Render) : Render :=
  setContextMenu None
    (setSelectedImage None
       (setImages (filter (λ i, Some (Img.id i) ≠ selectedImage r) (images r)) r)).

Definition deleteSelectedText (r : Render) : Render :=
  setContextMenu None
    (setSelectedText None
       (setTexts (filter (λ t, Some (Txt.id t) ≠ selectedText r) (texts r)) r)).

(** The body shared by [zoomInImage] and [zoomOutImage]. *)
Definition zoomImages (f : Q) (sel : option nat) (l : list Img.t) : list Img.t :=
  (λ i, if bool_decide (Some (Img.id i) = sel) then Img.scaled f i else i) <$> l.

Definition zoomInImage (r : Render) : Render :=
  setContextMenu None (setImages (zoomImages 1.2 (selectedImage r) (images r)) r).

Definition zoomOutImage (r : Render) : Render :=
  setContextMenu None (setImages (zoomImages 0.8 (selectedImage r) (images r)) r).

(** ** Text annotations *)

(** A handler either returns, and React commits the queued updates, or
    throws before any update was queued. *)
Inductive Outcome :=
| Done (r' : Render)
| TypeError.

(** [images.find((img) => img.id === selectedImage)] *)
Definition findImage (sid : nat) (l : list Img.t) : option Img.t :=
  snd <$> list_find (λ i, Img.id i = sid) l.

Definition newText (r : Render) (image : Img.t) : Txt.t :=
  {| Txt.id := length (texts r);
     Txt.x := (Img.x image + 10)%Q;
     Txt.y := (Img.y image + 10)%Q;
     Txt.text := "Sample Text";
     Txt.width := 100%Q;
     Txt.rotation := 0%Q |}.

Definition addText (r : Render) : Outcome :=
  match selectedImage r with
  | Some sid =>
      match findImage sid (images r) with
      | Some image =>
          Done (setContextMenu None (setTexts (texts r ++ [newText r image]) r))
      | None => TypeError (* [image] is [undefined]: reading [image.x] throws *)
      end
  | None => Done (setContextMenu None r)
  end.

Definition handleTextChange (id : nat) (a : Txt.attrs) (r : Render) : Render :=
  setTexts ((λ t, if bool_decide (Txt.id t = id) then Txt.merge a t else t) <$> texts r) r.

Definition handleTextEdit (id : nat) (s : string) (r : Render) : Render :=
  setTexts ((λ t, if bool_decide (Txt.id t = id) then Txt.with_text s t else t) <$> texts r) r.

(** ** Context menu, stage, print, mode and grid *)

Definition handleContextMenu (cx cy : Z) (id : nat) (type : string) (r : Render) : Render :=
  let r1 :=
    if decide (type = "image") then setSelectedText None (setSelectedImage (Some id) r)
    else if decide (type = "text") then setSelectedImage None (setSelectedText (Some id) r)
    else r in
  setContextMenu (Some (Menu.mk cx cy)) r1.

(** [targetIsStage] is the value of [e.target === e.target.getStage()]. *)
Definition handleStageClick (targetIsStage : bool) (r : Render) : Render :=
  if targetIsStage
  then setContextMenu None (setSelectedText None (setSelectedImage None r))
  else r.

(** The state updates of [handlePrint]; the deferred raster export reads
    the stage and writes no state. *)
Definition handlePrint (r : Render) : Render :=
  setSelectedText None (setSelectedImage None r).

Definition handlePrintModeChange (m : PrintMode) (r : Render) : Render :=
  setTexts [] (setImages [] (setPrintMode m r)).

(** [parseInt(e.target.value) || d]: [None] stands for [NaN]. *)
Definition parseInt_or (v : option Z) (d : Z) : Z :=
  match v with
  | Some z => if (z =? 0)%Z then d else z
  | None => d
  end.

Definition onColsChange (v : option Z) (r : Render) : Render :=
  setGridSize (mkGrid (rows (gridSize r)) (parseInt_or v 5)) r.

Definition onRowsChange (v : option Z) (r : Render) : Render :=
  setGridSize (mkGrid (parseInt_or v 4) (cols (gridSize r))) r.

(** ** [ClippedImage] *)

Module ClippedImage.
(** The offset of the [Group]. *)
Definition group_x (clipToCell : bool) (cellWidth : Q) (image : Img.t) : Q :=
  if clipToCell then (inject_Z (col (Img.gridPos image)) * cellWidth)%Q else 0%Q.
Definition group_y (clipToCell : bool) (cellHeight : Q) (image : Img.t) : Q :=
  if clipToCell then (inject_Z (row (Img.gridPos image)) * cellHeight)%Q else 0%Q.

(** Where the [Image] node lands on the page: the offset of its group plus
    its own offset inside the group. *)
Definition page_x (clipToCell : bool) (cellWidth : Q) (image : Img.t) : Q :=
  (group_x clipToCell cellWidth image + Img.x image)%Q.
Definition page_y (clipToCell : bool) (cellHeight : Q) (image : Img.t) : Q :=
  (group_y clipToCell cellHeight image + Img.y image)%Q.

(** [onDragEnd], through the [onChange] that [PrintCanvas] passes for the
    image at [index]: [updatedImages[index] = { ...image, x, y }].  The
    handler exists only for an image that is rendered. *)
Definition onDragEnd (index : nat) (x' y' : Q) (r : Render) : Render :=
  match images r !! index with
  | Some image => setImages (<[index := Img.with_xy x' y' image]> (images r)) r
  | None => r
  end.
End ClippedImage.

(** The props that [PrintCanvas] gives to the [ClippedImage] of [image]. *)
Definition clipToCell (r : Render) : bool := bool_decide (printMode r = PECS).
Definition rendered_x (r : Render) (image : Img.t) : Q :=
  ClippedImage.page_x (clipToCell r) (cellWidth r) image.
Definition rendered_y (r : Render) (image : Img.t) : Q :=
  ClippedImage.page_y (clipToCell r) (cellHeight r) image.

(** ** The event loop *)

(** The component together with the uploads in flight: [pending] lists the
    renders whose [handleFileUpload] started a read that has not yet
    reached [img.onload]. *)
Record World := mkWorld { cur : Render; pending : list Render }.

Definition world0 : World := mkWorld initial [].

Inductive Event :=
| FileChosen
| ImgLoaded (k : nat) (img : Bitmap.t)
| ClickImage (index : nat)
| ClickTextBox (index : nat)
| ClickText (index : nat)
| DblClickText (index : nat) (input : option string)
| DragImage (index : nat) (x' y' : Q)
| DragText (index : nat) (x' y' : Q)
| TransformText (index : nat) (x' y' rot w : Q)
| ContextMenuImage (index : nat) (cx cy : Z)
| ContextMenuText (index : nat) (cx cy : Z)
| StageMouseDown (targetIsStage : bool)
| MenuDelete
| MenuZoomIn
| MenuZoomOut
| MenuAddText
| MenuDeleteText
| PrintClick
| PrintModeChange (m : PrintMode)
| ColsInput (v : option Z)
| RowsInput (v : option Z)
| PageSizeChange (p : PageSize)
| OrientationChange (o : Orientation).

Definition on_cur (f : Render → Render) (w : World) : option World :=
  Some (mkWorld (f (cur w)) (pending w)).

(** An event on the element at [index] of a list needs that element to be
    rendered. *)
Definition on_item {A} (l : list A) (index : nat) (f : A → Render → Render)
    (w : World) : option World :=
  a ← l !! index; on_cur (f a) w.

(** The items of the context menu exist only while it is open. *)
Definition on_menu (f : Render → Render) (w : World) : option World :=
  match contextMenu (cur w) with
  | Some _ => on_cur f w
  | None => None
  end.

(** One event: [None] when the interface of the current render offers no
    such event.  A click on a [Text] node runs the node's own [onClick]
    and then, bubbling, the [onClick] of its [Group]. *)
Definition step (w : World) (e : Event) : option World :=
  let r := cur w in
  match e with
  | FileChosen => Some (mkWorld (handleFileUpload r) (pending w ++ [r]))
  | ImgLoaded k img =>
      r0 ← pending w !! k;
      Some (mkWorld (img_onload r0 img r) (delete k (pending w)))
  | ClickImage index =>
      on_item (images r) index (λ i, handleSelectImage (Img.id i)) w
  | ClickTextBox index =>
      on_item (texts r) index (λ t, handleSelectText (Txt.id t)) w
  | ClickText index =>
      on_item (texts r) index
        (λ t r, handleSelectText (Txt.id t) (setSelectedText (Some (Txt.id t)) r)) w
  | DblClickText index input =>
      on_item (texts r) index
        (λ t r, match input with
                | Some s => handleTextEdit (Txt.id t) s r
                | None => r
                end) w
  | DragImage index x' y' =>
      on_item (images r) index (λ _, ClippedImage.onDragEnd index x' y') w
  | DragText index x' y' =>
      on_item (texts r) index
        (λ t, handleTextChange (Txt.id t) (Txt.mkAttrs (Some x') (Some y') None None)) w
  | TransformText index x' y' rot wd =>
      on_item (texts r) index
        (λ t, handleTextChange (Txt.id t)
                (Txt.mkAttrs (Some x') (Some y') (Some rot) (Some wd))) w
  | ContextMenuImage index cx cy =>
      on_item (images r) index (λ i, handleContextMenu cx cy (Img.id i) "image") w
  | ContextMenuText index cx cy =>
      on_item (texts r) index (λ t, handleContextMenu cx cy (Txt.id t) "text") w
  | StageMouseDown b => on_cur (handleStageClick b) w
  | MenuDelete => on_menu deleteSelectedImage w
  | MenuZoomIn => on_menu zoomInImage w
  | MenuZoomOut => on_menu zoomOutImage w
  | MenuAddText =>
      on_menu (λ r, match addText r with Done r' => r' | TypeError => r end) w
  | MenuDeleteText => on_menu deleteSelectedText w
  | PrintClick => on_cur handlePrint w
  | PrintModeChange m => on_cur (handlePrintModeChange m) w
  | ColsInput v => if clipToCell r then on_cur (onColsChange v) w else None
  | RowsInput v => if clipToCell r then on_cur (onRowsChange v) w else None
  | PageSizeChange p => on_cur (setPageSize p) w
  | OrientationChange o => on_cur (setOrientation o) w
  end.

Fixpoint run (w : World) (es : list Event) : option World :=
  match es with
  | [] => Some w
  | e :: es' => w' ← step w e; run w' es'
  end.

Inductive reachable : World → Prop :=
| reach_init : reachable world0
| reach_step w e w' : reachable w → step w e = Some w' → reachable w'.

(** ** The arithmetic of the program *)

(** JavaScript numbers are binary64 floating-point numbers.  [B64] is the
    arithmetic of [handleFileUpload] and of the [Group] of [ClippedImage]
    as the program runs it: every [/], [*] and [-] is the binary64
    operation, which rounds its result to the nearest representable
    number. *)
Module B64.
Import Floats.
Local Open Scope float_scope.

(** An integer as a JavaScript number: the integer itself up to [2^53] in
    absolute value, the nearest binary64 number beyond. *)
Definition of_Z (z : Z) : float :=
  SF2Prim (SpecFloat.binary_normalize FloatOps.prec FloatOps.emax z 0 false).

(** [Math.min] of two numbers: [NaN] if one of them is; [-0] counts as
    smaller than [+0]. *)
Definition min (a b : float) : float :=
  if is_nan a then a
  else if is_nan b then b
  else if a <? b then a
  else if b <? a then b
  else match classify a with NZero => a | _ => b end.

Definition PAGE_SIZES (p : PageSize) : float * float :=
  match p with
  | A4 => (210, 297)
  | A3 => (297, 420)
  end.

Definition canvasWidth (r : Render) : float :=
  match orientation r with
  | portrait => fst (PAGE_SIZES (pageSize r))
  | landscape => snd (PAGE_SIZES (pageSize r))
  end.
Definition canvasHeight (r : Render) : float :=
  match orientation r with
  | portrait => snd (PAGE_SIZES (pageSize r))
  | landscape => fst (PAGE_SIZES (pageSize r))
  end.

Definition cellWidth (r : Render) : float :=
  canvasWidth r / of_Z (cols (gridSize r)).
Definition cellHeight (r : Render) : float :=
  canvasHeight r / of_Z (rows (gridSize r)).

(** [scale], [width], [height] and the [x] and [y] of [newImage] in
    [img.onload], for the render [r] in which the file was chosen and the
    decoded bitmap [img]. *)
Definition scale (r : Render) (img : Bitmap.t) : float :=
  match printMode r with
  | ScaledPrint =>
      min (canvasWidth r / of_Z (Bitmap.width img))
          (canvasHeight r / of_Z (Bitmap.height img))
  | PECS =>
      min (cellWidth r / of_Z (Bitmap.width img))
          (cellHeight r / of_Z (Bitmap.height img))
  end.

Definition width (r : Render) (img : Bitmap.t) : float :=
  of_Z (Bitmap.width img) * scale r img.
Definition height (r : Render) (img : Bitmap.t) : float :=
  of_Z (Bitmap.height img) * scale r img.

Definition x (r : Render) (img : Bitmap.t) : float :=
  match printMode r with
  | ScaledPrint => (canvasWidth r - width r img) / 2
  | PECS => (cellWidth r - width r img) / 2
  end.
Definition y (r : Render) (img : Bitmap.t) : float :=
  match printMode r with
  | ScaledPrint => (canvasHeight r - height r img) / 2
  | PECS => (cellHeight r - height r img) / 2
  end.

(** The offset that the render [r'] gives to the [Group] of an image with
    grid position [gp]. *)
Definition group_x (r' : Render) (gp : GridPos) : float :=
  if clipToCell r' then of_Z (col gp) * cellWidth r' else 0.
Definition group_y (r' : Render) (gp : GridPos) : float :=
  if clipToCell r' then of_Z (row gp) * cellHeight r' else 0.
End B64.

(** ** The target of a press on the stage *)

(** The [Stage] is [canvasDimensions.width * 3] by
    [canvasDimensions.height * 3] pixels and is drawn at scale 3: the
    pointer of a press on it is over a point [(px, py)] of the page with
    [0 <= px * 3 < width * 3] and [0 <= py * 3 < height * 3]. *)
Definition on_stage (r : Render) (px py : Q) : Prop :=
  (0 <= px * 3 ∧ px * 3 < Dim.width (canvasDimensions r) * 3)%Q ∧
  (0 <= py * 3 ∧ py * 3 < Dim.height (canvasDimensions r) * 3)%Q.

(** The first child of the layer is a filled [Rect] at the origin, as wide
    and as high as the page: it is hit by a press over any of its points. *)
Definition background_hit (r : Render) (px py : Q) : bool :=
  Qle_bool 0 px && Qle_bool px (Dim.width (canvasDimensions r)) &&
  Qle_bool 0 py && Qle_bool py (Dim.height (canvasDimensions r)).

(** [e.target === e.target.getStage()] for a press over a point of the
    canvas where no image, text, grid line or handle is drawn: the target
    is the background [Rect] where it is hit, and the stage elsewhere. *)
Definition empty_canvas_target_is_stage (r : Render) (px py : Q) : bool :=
  negb (background_hit r px py).

(** ** Vocabulary of the properties *)

(** [resized f i i']: [i'] is [i] with width and height multiplied by [f]
    and every other field kept. *)
Definition resized (f : Q) (i i' : Img.t) : Prop :=
  Img.width i' = (Img.width i * f)%Q ∧
  Img.height i' = (Img.height i * f)%Q ∧
  Img.x i' = Img.x i ∧
  Img.y i' = Img.y i ∧
  Img.id i' = Img.id i ∧
  Img.gridPos i' = Img.gridPos i ∧
  Img.src i' = Img.src i.

(** At most one of the two selections is set. *)
Definition exclusive (r : Render) : Prop :=
  selectedImage r = None ∨ selectedText r = None.

(** [quiet e]: [e] is not the arrival of a decoded image. *)
Definition quiet (e : Event) : Prop :=
  match e with ImgLoaded _ _ => False | _ => True end.

(** [same_layout r r']: the render [r'] draws the page, the mode and the
    grid that [r] had. *)
Definition same_layout (r r' : Render) : Prop :=
  pageSize r' = pageSize r ∧
  orientation r' = orientation r ∧
  printMode r' = printMode r ∧
  gridSize r' = gridSize r.

(** [grid_ok r]: the grid of [r] has neither zero rows nor zero columns,
    so that [cellWidth] and [cellHeight] are quotients by a non-zero
    number. *)
Definition grid_ok (r : Render) : Prop :=
  rows (gridSize r) ≠ 0%Z ∧ cols (gridSize r) ≠ 0%Z.

(** ** Sample inputs *)

Definition bitmap_a : Bitmap.t := Bitmap.mk 1000 500.
Definition bitmap_b : Bitmap.t := Bitmap.mk 640 480.
Definition bitmap_c : Bitmap.t := Bitmap.mk 300 300.

Definition image_a : Img.t := Img.mk 0 bitmap_a 0 96 210 105 (mkPos 0 0).
Definition image_b : Img.t := Img.mk 1 bitmap_b 10 20 64 48 (mkPos 0 1).

(** Two images, the first one selected. *)
Definition two_images : Render :=
  setSelectedImage (Some 0) (setImages [image_a; image_b] initial).


(** PECS mode with the default grid and one image on the page. *)
Definition pecs1 : Render :=
  setImages [image_b] (handlePrintModeChange PECS initial).

(** A file has just been chosen in render [r]. *)
Definition loading (r : Render) : World := mkWorld (handleFileUpload r) [r].

(** ** [drawGrid] and the text boxes *)

(** A [Line] element: its React key, its four [points] and its stroke. *)
Module Line.
Record t := mk {
  key : string;
  points : list Q;
  stroke : string;
  strokeWidth : Q
}.
End Line.

(** The two [for] loops of [drawGrid]: [i] runs over [1 .. rows - 1], then
    [j] over [1 .. cols - 1]; each iteration pushes one line. *)
Definition drawGrid (r : Render) : list Line.t :=
  ((λ i : Z,
      Line.mk ("h-" +:+ pretty i)
        [0%Q; (inject_Z i * cellHeight r)%Q;
         Dim.width (canvasDimensions r); (inject_Z i * cellHeight r)%Q]
        "black" 0.5%Q)
     <$> seqZ 1 (rows (gridSize r) - 1))
  ++
  ((λ j : Z,
      Line.mk ("v-" +:+ pretty j)
        [(inject_Z j * cellWidth r)%Q; 0%Q;
         (inject_Z j * cellWidth r)%Q; Dim.height (canvasDimensions r)]
        "black" 0.5%Q)
     <$> seqZ 1 (cols (gridSize r) - 1)).


(** ** Kinds of events *)

(** The five items of the context menu. *)
Definition menu_event (e : Event) : Prop :=
  match e with
  | MenuDelete | MenuZoomIn | MenuZoomOut | MenuAddText | MenuDeleteText => True
  | _ => False
  end.

(** The events that change the page or the grid and nothing else. *)
Definition layout_event (e : Event) : Prop :=
  match e with
  | ColsInput _ | RowsInput _ | PageSizeChange _ | OrientationChange _ => True
  | _ => False
  end.

(** The events that only select, deselect or open the menu. *)
Definition selection_event (e : Event) : Prop :=
  match e with
  | ClickImage _ | ClickTextBox _ | ClickText _
  | ContextMenuImage _ _ _ | ContextMenuText _ _ _
  | StageMouseDown _ | PrintClick => True
  | _ => False
  end.

(** The two events of an upload. *)
Definition upload_event (e : Event) : Prop :=
  match e with
  | FileChosen | ImgLoaded _ _ => True
  | _ => False
  end.

(** [stale r]: no image of the list carries the selected id (in particular
    when nothing is selected). *)
Definition stale (r : Render) : Prop :=
  ∀ i, i ∈ images r → Some (Img.id i) ≠ selectedImage r.

(** * Properties *)

(** ** Unfolding one step *)

Lemma on_cur_Some f w w' :
  on_cur f w = Some w' ↔ w' = mkWorld (f (cur w)) (pending w).
Proof. unfold on_cur. split; [by intros [= <-] | by intros ->]. Qed.

Lemma on_item_Some {A} (l : list A) index f w w' :
  on_item l index f w = Some w' ↔
  ∃ a, l !! index = Some a ∧ w' = mkWorld (f a (cur w)) (pending w).
Proof.
  unfold on_item. destruct (l !! index) as [a|]; simpl.
  - rewrite on_cur_Some. split; [eauto | by intros (? & [= <-] & ?)].
  - split; [done | by intros (? & ? & ?)].
Qed.

Lemma on_menu_Some f w w' :
  on_menu f w = Some w' ↔
  is_Some (contextMenu (cur w)) ∧ w' = mkWorld (f (cur w)) (pending w).
Proof.
  unfold on_menu. destruct (contextMenu (cur w)).
  - rewrite on_cur_Some. split; [eauto | tauto].
  - split; [done | by intros [[? [=]] _]].
Qed.

(** Breaks [step w e = Some w'] into the handler that ran. *)
Ltac step_inv H :=
  simpl in H;
  repeat match type of H with
    | (if ?b then _ else _) = Some _ => destruct b eqn:?; [| try discriminate H]
    end;
  lazymatch type of H with
  | Some _ = Some _ => injection H as H; symmetry in H
  | on_cur _ _ = Some _ => apply on_cur_Some in H
  | on_item _ _ _ _ = Some _ => apply on_item_Some in H; destruct H as (? & ? & H)
  | on_menu _ _ = Some _ => apply on_menu_Some in H; destruct H as (? & H)
  | _ ≫= _ = Some _ =>
      apply bind_Some in H; destruct H as (? & ? & H);
      injection H as H; symmetry in H
  end.

Lemma run_reachable w es w' : reachable w → run w es = Some w' → reachable w'.
Proof.
  revert w. induction es as [|e es IH]; intros w Hw; simpl.
  - by intros [= <-].
  - destruct (step w e) as [w1|] eqn:Hs; simpl; [|done].
    apply IH. by eapply reach_step.
Qed.

(** The step taken when the image of an upload in flight has loaded. *)
Lemma img_loaded_step w k r img :
  pending w !! k = Some r →
  step w (ImgLoaded k img) =
    Some (mkWorld (setImages (images (cur w) ++ [newImage r img]) (cur w))
                  (delete k (pending w))).
Proof. intros Hk. simpl. by rewrite Hk. Qed.

(** An upload that nothing interrupts: the list is emptied when the file
    is chosen and holds the one new image when it has loaded; page, mode
    and grid are those of the render in which the file was chosen. *)
Lemma upload_uninterrupted w img :
  ∃ w', run w [FileChosen; ImgLoaded (length (pending w)) img] = Some w' ∧
        images (cur w') = [newImage (cur w) img] ∧
        same_layout (cur w) (cur w') ∧
        pending w' = pending w.
Proof.
  eexists. split.
  - simpl. rewrite lookup_app_r, Nat.sub_diag by done. simpl. reflexivity.
  - simpl. split; [done|]. split; [by repeat split|].
    by rewrite delete_middle, app_nil_r.
Qed.

(** ** The grid never has zero rows or columns *)

Lemma parseInt_or_nonzero v d : d ≠ 0%Z → parseInt_or v d ≠ 0%Z.
Proof.
  intros Hd. unfold parseInt_or. destruct v as [z|]; [|done].
  destruct (Z.eqb_spec z 0); done.
Qed.

Lemma step_grid_ok w e w' :
  grid_ok (cur w) → Forall grid_ok (pending w) → step w e = Some w' →
  grid_ok (cur w') ∧ Forall grid_ok (pending w').
Proof.
  unfold grid_ok at 1 3. intros [Hr Hc] Hp Hs.
  destruct e; step_inv Hs; subst; simpl; try (split; [by split | done]).
  - split; [by split|]. apply Forall_app. split; [done|].
    apply Forall_singleton. by split.
  - split; [by split|]. by apply Forall_delete.
  - split; [|done]. by destruct input.
  - split; [|done]. unfold ClippedImage.onDragEnd.
    by destruct (images (cur w) !! index).
  - split; [|done]. by destruct targetIsStage.
  - split; [|done]. unfold addText.
    destruct (selectedImage (cur w)) as [sid|]; [|done].
    by destruct (findImage sid (images (cur w))).
  - split; [|done]. split; [done|]. by apply parseInt_or_nonzero.
  - split; [|done]. split; [|done]. by apply parseInt_or_nonzero.
Qed.

Lemma reachable_grid_ok w :
  reachable w → grid_ok (cur w) ∧ Forall grid_ok (pending w).
Proof.
  induction 1 as [|w e w' _ [IHc IHp] Hs].
  - split; [by split | constructor].
  - by eapply step_grid_ok.
Qed.

(** ** Switching the print mode *)

(** C5. Whatever the render and the chosen mode, [handlePrintModeChange]
    leaves an empty image list and an empty text list (and the new mode);
    the event is always offered, and it is this handler that runs. *)
Theorem print_mode_change_clears (w : World) (m : PrintMode) :
  images (handlePrintModeChange m (cur w)) = [] ∧
  texts (handlePrintModeChange m (cur w)) = [] ∧
  printMode (handlePrintModeChange m (cur w)) = m ∧
  step w (PrintModeChange m) =
    Some (mkWorld (handlePrintModeChange m (cur w)) (pending w)).
Proof. by repeat split. Qed.

(** ** Zoom *)

Lemma zoomImages_lookup f sel l k i :
  l !! k = Some i →
  zoomImages f sel l !! k =
    Some (if bool_decide (Some (Img.id i) = sel) then Img.scaled f i else i).
Proof. intros H. unfold zoomImages. by rewrite list_lookup_fmap, H. Qed.

Lemma scaled_resized f i : resized f i (Img.scaled f i).
Proof. by repeat split. Qed.

(** C7. In any image list, zoom-in replaces each image whose id is the
    selected one by a copy whose width and height are multiplied by 1.2,
    zoom-out by 0.8, with x, y, id, gridPos and src kept; every image with
    another id stays, at the same index, exactly as it was, and the list
    keeps its length. *)
Theorem zoom_resizes_selected_only (r : Render) (k : nat) (i : Img.t) :
  images r !! k = Some i →
  (Some (Img.id i) = selectedImage r →
     (∃ i', images (zoomInImage r) !! k = Some i' ∧ resized 1.2 i i') ∧
     (∃ i', images (zoomOutImage r) !! k = Some i' ∧ resized 0.8 i i')) ∧
  (Some (Img.id i) ≠ selectedImage r →
     images (zoomInImage r) !! k = Some i ∧
     images (zoomOutImage r) !! k = Some i) ∧
  length (images (zoomInImage r)) = length (images r) ∧
  length (images (zoomOutImage r)) = length (images r).
Proof.
  intros Hk. simpl.
  rewrite !(zoomImages_lookup _ _ _ _ _ Hk).
  repeat split.
  - rewrite bool_decide_eq_true_2 by done. eauto using scaled_resized.
  - rewrite bool_decide_eq_true_2 by done. eauto using scaled_resized.
  - by rewrite bool_decide_eq_false_2.
  - by rewrite bool_decide_eq_false_2.
  - unfold zoomImages. by rewrite length_fmap.
  - unfold zoomImages. by rewrite length_fmap.
Qed.

(** ** Adding a text *)

Lemma findImage_None sid (l : list Img.t) :
  (∀ i, i ∈ l → Img.id i ≠ sid) → findImage sid l = None.
Proof.
  intros Hs. unfold findImage.
  destruct (list_find _ l) as [[k i]|] eqn:Hf; [|done].
  apply list_find_Some in Hf as (Hk & Hid & _).
  exfalso. eapply Hs; [|done]. by eapply list_elem_of_lookup_2.
Qed.

(** [images.find] returns the first image that carries the id. *)
Lemma findImage_first sid (l : list Img.t) k image :
  l !! k = Some image →
  Img.id image = sid →
  (∀ j image', j < k → l !! j = Some image' → Img.id image' ≠ sid) →
  findImage sid l = Some image.
Proof.
  intros Hk Hid Hfirst. unfold findImage.
  assert (Hf : list_find (λ i, Img.id i = sid) l = Some (k, image)).
  { apply list_find_Some. split; [done|]. split; [done|].
    intros j y Hj Hlt. by eapply Hfirst. }
  by rewrite Hf.
Qed.

(** C8. With no selected image, [addText] returns and leaves the text list
    as it was (so an empty list stays empty).  With a selected id, let
    [image] be the image of the list that carries it, the first one if
    there are several: [addText] returns with exactly one text appended,
    which sits at [image.x + 10], [image.y + 10], reads "Sample Text", is
    100 wide, is not rotated and has the former length of the list as its
    id.  With a selected id that no image of the list carries, it throws
    and no update is made. *)
Theorem addText_spec (r : Render) :
  (selectedImage r = None →
     ∃ r', addText r = Done r' ∧ texts r' = texts r ∧
           (length (texts r) = 0 → length (texts r') = 0)) ∧
  (∀ sid k image,
     selectedImage r = Some sid →
     images r !! k = Some image →
     Img.id image = sid →
     (∀ j image', j < k → images r !! j = Some image' → Img.id image' ≠ sid) →
     ∃ r' t, addText r = Done r' ∧ texts r' = texts r ++ [t] ∧
             Txt.x t = (Img.x image + 10)%Q ∧
             Txt.y t = (Img.y image + 10)%Q ∧
             Txt.text t = "Sample Text" ∧
             Txt.width t = 100%Q ∧
             Txt.rotation t = 0%Q ∧
             Txt.id t = length (texts r) ∧
             images r' = images r) ∧
  (∀ sid,
     selectedImage r = Some sid →
     (∀ image, image ∈ images r → Img.id image ≠ sid) →
     addText r = TypeError).
Proof.
  split; [|split].
  - intros Hsel. unfold addText. rewrite Hsel. eexists. by repeat split.
  - intros sid k image Hsel Hk Hid Hfirst. unfold addText.
    rewrite Hsel, (findImage_first sid _ k image Hk Hid Hfirst).
    eexists _, _. by repeat split.
  - intros sid Hsel Hnone. unfold addText.
    by rewrite Hsel, (findImage_None sid _ Hnone).
Qed.

Lemma addText_spec_witness :
  (selectedImage initial = None ∧
   ∃ r', addText initial = Done r' ∧ texts r' = texts initial ∧ length (texts r') = 0) ∧
  (selectedImage (setSelectedImage (Some 1) two_images) = Some 1 ∧
   images (setSelectedImage (Some 1) two_images) !! 1 = Some image_b ∧
   Img.id image_b = 1 ∧
   ∃ r' t, addText (setSelectedImage (Some 1) two_images) = Done r' ∧
           texts r' = [t] ∧
           Txt.x t = (Img.x image_b + 10)%Q ∧ Txt.y t = (Img.y image_b + 10)%Q) ∧
  (selectedImage (setImages [image_b] two_images) = Some 0 ∧
   addText (setImages [image_b] two_images) = TypeError).
Proof.
  split; [|split].
  - split; [reflexivity|].
    destruct (addText_spec initial) as (Hnone & _).
    destruct (Hnone eq_refl) as (r' & Ha & Ht & Hl).
    exists r'. split; [exact Ha|]. split; [exact Ht | exact (Hl eq_refl)].
  - do 3 (split; [reflexivity|]).
    destruct (addText_spec (setSelectedImage (Some 1) two_images)) as (_ & Hsome & _).
    destruct (Hsome 1 1 image_b eq_refl eq_refl eq_refl)
      as (r' & t & Ha & Ht & Hx & Hy & _).
    { intros j image' Hj Hl. destruct j as [|j]; [|lia].
      injection Hl as <-. discriminate. }
    exists r', t.
    split; [exact Ha|]. split; [exact Ht|]. split; [exact Hx | exact Hy].
  - split; [reflexivity|].
    destruct (addText_spec (setImages [image_b] two_images)) as (_ & _ & Hthrow).
    apply (Hthrow 0 eq_refl).
    intros image Hi. apply list_elem_of_singleton in Hi as ->. discriminate.
Defined.

(** ** Selection *)

Lemma addText_selection r r' :
  addText r = Done r' →
  selectedImage r' = selectedImage r ∧ selectedText r' = selectedText r.
Proof.
  unfold addText. destruct (selectedImage r) as [sid|] eqn:Hs.
  - destruct (findImage sid (images r)); [|done]. intros [= <-]. by simpl.
  - intros [= <-]. by simpl.
Qed.

Lemma step_exclusive w e w' :
  exclusive (cur w) → step w e = Some w' → exclusive (cur w').
Proof.
  unfold exclusive. intros Hex Hs.
  destruct e; step_inv Hs; subst; simpl; auto.
  - (* DblClickText *)
    destruct input; by simpl.
  - (* DragImage *)
    unfold ClippedImage.onDragEnd. destruct (images (cur w) !! index); by simpl.
  - (* StageMouseDown *)
    destruct targetIsStage; simpl; auto.
  - (* MenuAddText *)
    destruct (addText (cur w)) as [r'|] eqn:Ha; [|done].
    apply addText_selection in Ha as [-> ->]. done.
Qed.

Lemma reachable_exclusive w : reachable w → exclusive (cur w).
Proof.
  induction 1 as [|w e w' _ IH Hs]; [by left | by eapply step_exclusive].
Qed.

(** The background covers every point that the stage shows. *)
Lemma background_covers_stage r px py :
  on_stage r px py → background_hit r px py = true.
Proof.
  intros [[Hx0 Hx1] [Hy0 Hy1]]. unfold background_hit.
  rewrite !andb_true_iff, !Qle_bool_iff. repeat split; lra.
Qed.

(** C9. An image is uploaded and a right click selects it and opens the
    menu.  The image ends above [y = 290] and there is no text: the
    point [(200, 290)] of the stage is empty canvas, where a press has the
    background rectangle as its target, not the stage: [handleStageClick]
    does nothing, so the image is still selected and the menu still
    open. *)
Theorem empty_canvas_press_clears_nothing :
  ∃ w image w',
    run world0 [FileChosen; ImgLoaded 0 bitmap_a; ContextMenuImage 0 40 40] = Some w ∧
    images (cur w) = [image] ∧
    (rendered_y (cur w) image + Img.height image < 290)%Q ∧
    texts (cur w) = [] ∧
    on_stage (cur w) 200 290 ∧
    empty_canvas_target_is_stage (cur w) 200 290 = false ∧
    step w (StageMouseDown (empty_canvas_target_is_stage (cur w) 200 290)) = Some w' ∧
    selectedImage (cur w') = Some 0 ∧
    contextMenu (cur w') = Some (Menu.mk 40 40).
Proof.
  eexists _, _, _. split; [vm_compute; reflexivity|].
  split; [reflexivity|].
  assert (Hon : on_stage initial 200 290) by (repeat split; by compute).
  do 2 (split; [reflexivity|]). split; [exact Hon|].
  assert (Ht : empty_canvas_target_is_stage initial 200 290 = false).
  { unfold empty_canvas_target_is_stage.
    by rewrite (background_covers_stage _ _ _ Hon). }
  split; [exact Ht|].
  split; [reflexivity|]. by split.
Qed.

(** ** Uploads *)

(** While no decoded image arrives, an empty image list stays empty and
    uploads in flight stay in flight, at the same place. *)
Lemma quiet_step w e w' :
  quiet e → step w e = Some w' → images (cur w) = [] →
  images (cur w') = [] ∧ ∃ more, pending w' = pending w ++ more.
Proof.
  intros Hq Hs He.
  destruct e; try done; step_inv Hs; subst; simpl;
    (split; [| first [by eexists | by exists []; rewrite app_nil_r]]);
    rewrite ?He; try done.
  - destruct input; by simpl.
  - unfold ClippedImage.onDragEnd. rewrite He. by simpl.
  - by destruct targetIsStage.
  - unfold addText. rewrite He.
    by destruct (selectedImage (cur w)).
Qed.

Lemma quiet_run es : ∀ w w',
  Forall quiet es → run w es = Some w' → images (cur w) = [] →
  images (cur w') = [] ∧ ∃ more, pending w' = pending w ++ more.
Proof.
  induction es as [|e es IH]; intros w w' Hq Hr He; simpl in Hr.
  - injection Hr as <-. split; [done|]. exists []. by rewrite app_nil_r.
  - apply Forall_cons in Hq as [Hqe Hq].
    destruct (step w e) as [w1|] eqn:Hs; simpl in Hr; [|done].
    destruct (quiet_step _ _ _ Hqe Hs He) as [He1 [m1 Hp1]].
    destruct (IH _ _ Hq Hr He1) as [He' [m2 Hp2]].
    split; [done|]. exists (m1 ++ m2). by rewrite Hp2, Hp1, app_assoc.
Qed.

(** C2, amended. Start an upload in any state, whatever the number of
    images present; let any events follow, none of them the arrival of
    another decoded image.  Then the image of this upload can load, and
    when it has, the image list holds exactly one element, the image
    placed by this upload. *)
Theorem upload_leaves_one_image (w w1 : World) (es : list Event) (img : Bitmap.t) :
  Forall quiet es →
  run w (FileChosen :: es) = Some w1 →
  ∃ w2, step w1 (ImgLoaded (length (pending w)) img) = Some w2 ∧
        images (cur w2) = [newImage (cur w) img].
Proof.
  intros Hq Hr. simpl in Hr.
  destruct (quiet_run es _ _ Hq Hr eq_refl) as [He [more Hp]].
  simpl in Hp. eexists. split.
  - apply img_loaded_step. rewrite Hp, <- app_assoc.
    by rewrite lookup_app_r, Nat.sub_diag.
  - simpl. by rewrite He.
Qed.

(** Two files chosen before either image has loaded: both images are
    appended, so the list holds two elements after the second upload has
    completed. *)
Lemma overlapping_uploads_keep_two_images :
  ∃ w, run world0 [FileChosen; FileChosen;
                   ImgLoaded 0 bitmap_a; ImgLoaded 0 bitmap_b] = Some w ∧
       Img.src <$> images (cur w) = [bitmap_a; bitmap_b] ∧
       length (images (cur w)) = 2 ∧
       pending w = [].
Proof. eexists. split; [vm_compute; reflexivity | by repeat split]. Qed.

(** ** Grid position *)

Lemma newImage_gridPos r img :
  Img.gridPos (newImage r img) =
    mkPos (Z.of_nat (length (images r)) `div` cols (gridSize r))
          (Z.of_nat (length (images r)) `rem` cols (gridSize r)).
Proof. unfold newImage. cbn [Img.gridPos]. by rewrite <- Zdiv_Qdiv. Qed.

(** C1. Three uploads one after the other in PECS mode with four columns:
    the third image is placed in a list that the upload has emptied, at
    index 0, while its [gridPos] is computed from the one image that the
    list held when the third file was chosen: it is [(0, 1)], neither the
    [(0, 0)] of the index at which it is inserted nor the [(0, 2)] of a
    third image. *)
Lemma third_upload_gridPos_is_0_1 :
  ∃ w image,
    run world0 [PrintModeChange PECS;
                FileChosen; ImgLoaded 0 bitmap_a;
                FileChosen; ImgLoaded 0 bitmap_b;
                FileChosen; ImgLoaded 0 bitmap_c] = Some w ∧
    printMode (cur w) = PECS ∧
    cols (gridSize (cur w)) = 4%Z ∧
    images (cur w) = [image] ∧
    Img.src image = bitmap_c ∧
    Img.gridPos image = mkPos 0 1 ∧
    Img.gridPos image ≠ mkPos 0 2.
Proof.
  eexists _, _. split; [vm_compute; reflexivity|].
  by repeat split.
Qed.

(** ** Ids *)

(** C6. An image is uploaded; two texts are added to it (ids 0 and 1); the
    first text is deleted; a third text is added.  Its id is the length of
    the list, 1, which the surviving text already carries. *)
Theorem text_id_reused_after_delete :
  ∃ w t1 t2,
    run world0 [FileChosen; ImgLoaded 0 bitmap_a;
                ContextMenuImage 0 40 40; MenuAddText;
                ContextMenuImage 0 40 40; MenuAddText;
                ContextMenuText 0 20 20; MenuDeleteText;
                ContextMenuImage 0 40 40; MenuAddText] = Some w ∧
    texts (cur w) = [t1; t2] ∧
    Txt.id t1 = 1 ∧ Txt.id t2 = 1 ∧
    ¬ NoDup (Txt.id <$> texts (cur w)).
Proof.
  eexists _, _, _. split; [vm_compute; reflexivity|].
  do 3 (split; [reflexivity|]).
  intros Hnd. apply NoDup_cons in Hnd as [Hnotin _].
  apply Hnotin. simpl. left.
Qed.

(** ** Positive and non-zero quantities *)

Lemma inject_Z_pos z : (0 < z)%Z → (0 < inject_Z z)%Q.
Proof. intros Hz. change 0%Q with (inject_Z 0). by rewrite <- Zlt_Qlt. Qed.

Lemma canvasDimensions_pos r :
  (0 < Dim.width (canvasDimensions r))%Q ∧ (0 < Dim.height (canvasDimensions r))%Q.
Proof.
  unfold canvasDimensions, baseDimensions.
  destruct (orientation r), (pageSize r); simpl; split; reflexivity.
Qed.

Lemma inject_Z_nonzero z : z ≠ 0%Z → ¬ (inject_Z z == 0)%Q.
Proof. intros Hz E. apply Hz. by apply (inject_Z_injective z 0). Qed.

(** The origin of a cell in a column (or row) other than the first is not
    the origin of the page. *)
Lemma cell_offset_nonzero (W : Q) (n k : Z) :
  (0 < W)%Q → n ≠ 0%Z → k ≠ 0%Z → ¬ (inject_Z k * (W / inject_Z n) == 0)%Q.
Proof.
  intros HW Hn Hk E.
  apply inject_Z_nonzero in Hn, Hk.
  apply Qmult_integral in E as [E|E]; [done|].
  assert (E' : (W == W / inject_Z n * inject_Z n)%Q) by (field; done).
  rewrite E in E'. lra.
Qed.

(** ** The placement of an upload in the arithmetic of the program *)

Section Binary64.
Import Floats.
Local Open Scope float_scope.










End Binary64.

(** ** Grid mode *)

(** Unfolds the rendering of the image placed by an upload. *)
Ltac unfold_rendered :=
  unfold rendered_x, rendered_y, ClippedImage.page_x, ClippedImage.page_y,
    ClippedImage.group_x, ClippedImage.group_y.

(** C10. For an upload started in PECS mode (on a grid with neither zero
    rows nor zero columns) the stored [x] and [y] are
    offsets inside a cell, [x = (cellWidth - width) / 2] and
    [y = (cellHeight - height) / 2]; a render in PECS mode draws the image
    at [(col * cellWidth + x, row * cellHeight + y)], which is not [(x, y)]
    in any column and any row but the first.  For an upload started in
    Scaled Print mode the stored [x] and [y] are offsets on the page,
    [x = (pageWidth - width) / 2] and [y = (pageHeight - height) / 2], and
    a render in Scaled Print mode draws the image at [(x, y)]. *)
Theorem upload_stores_cell_offsets (w : World) (k : nat) (r : Render) (img : Bitmap.t) :
  pending w !! k = Some r →
  ∃ w' image,
    step w (ImgLoaded k img) = Some w' ∧
    images (cur w') = images (cur w) ++ [image] ∧
    (printMode r = PECS → grid_ok r →
       Img.x image = ((cellWidth r - Img.width image) / 2)%Q ∧
       Img.y image = ((cellHeight r - Img.height image) / 2)%Q ∧
       ∀ r', printMode r' = PECS →
         rendered_x r' image =
           (inject_Z (col (Img.gridPos image)) * cellWidth r' + Img.x image)%Q ∧
         rendered_y r' image =
           (inject_Z (row (Img.gridPos image)) * cellHeight r' + Img.y image)%Q ∧
         (cols (gridSize r') ≠ 0%Z → col (Img.gridPos image) ≠ 0%Z →
          ¬ (rendered_x r' image == Img.x image)%Q) ∧
         (rows (gridSize r') ≠ 0%Z → row (Img.gridPos image) ≠ 0%Z →
          ¬ (rendered_y r' image == Img.y image)%Q)) ∧
    (printMode r = ScaledPrint →
       Img.x image = ((Dim.width (canvasDimensions r) - Img.width image) / 2)%Q ∧
       Img.y image = ((Dim.height (canvasDimensions r) - Img.height image) / 2)%Q ∧
       ∀ r', printMode r' = ScaledPrint →
         (rendered_x r' image == Img.x image)%Q ∧
         (rendered_y r' image == Img.y image)%Q).
Proof.
  intros Hk.
  eexists _, _. split; [by apply img_loaded_step|]. split; [reflexivity|].
  split; [intros Hm _ | intros Hm].
  - unfold newImage at 1 2 3 4. cbn [Img.width Img.height Img.x Img.y].
    rewrite Hm. do 2 (split; [reflexivity|]).
    intros r' Hm'. unfold_rendered. unfold clipToCell.
    rewrite bool_decide_eq_true_2 by done.
    do 2 (split; [reflexivity|]).
    destruct (canvasDimensions_pos r') as [Hpw Hph].
    split; intros Hg Hp E.
    + apply (cell_offset_nonzero (Dim.width (canvasDimensions r'))
               (cols (gridSize r')) (col (Img.gridPos (newImage r img))));
        [done..|]. unfold cellWidth in E. lra.
    + apply (cell_offset_nonzero (Dim.height (canvasDimensions r'))
               (rows (gridSize r')) (row (Img.gridPos (newImage r img))));
        [done..|]. unfold cellHeight in E. lra.
  - unfold newImage at 1 2 3 4. cbn [Img.width Img.height Img.x Img.y].
    rewrite Hm. do 2 (split; [reflexivity|]).
    intros r' Hm'. unfold_rendered. unfold clipToCell.
    rewrite bool_decide_eq_false_2 by (rewrite Hm'; done).
    split; ring.
Qed.

(** * The properties at sample inputs *)

Lemma upload_leaves_one_image_witness :
  ∃ w1 w2,
    Forall quiet [StageMouseDown true; PrintModeChange PECS; FileChosen] ∧
    run (mkWorld pecs1 [])
        (FileChosen :: [StageMouseDown true; PrintModeChange PECS; FileChosen])
      = Some w1 ∧
    step w1 (ImgLoaded 0 bitmap_a) = Some w2 ∧
    images (cur w2) = [newImage pecs1 bitmap_a].
Proof.
  eexists.
  match goal with
  | |- ∃ w2, _ ∧ ?R = Some ?w ∧ _ =>
      assert (Hrun : R = Some w) by (vm_compute; reflexivity)
  end.
  assert (Hq : Forall quiet [StageMouseDown true; PrintModeChange PECS; FileChosen])
    by (repeat constructor).
  match type of Hrun with
  | _ = Some ?w1 =>
      destruct (upload_leaves_one_image (mkWorld pecs1 []) w1 _ bitmap_a Hq Hrun)
        as (w2 & Hs & Hi);
      exists w2;
      split; [exact Hq|]; split; [exact Hrun|];
      split; [exact Hs | exact Hi]
  end.
Defined.

Lemma zoom_resizes_selected_only_witness :
  images two_images !! 0 = Some image_a ∧
  Some (Img.id image_a) = selectedImage two_images ∧
  (∃ i', images (zoomInImage two_images) !! 0 = Some i' ∧ resized 1.2 image_a i') ∧
  (∃ i', images (zoomOutImage two_images) !! 0 = Some i' ∧ resized 0.8 image_a i') ∧
  images two_images !! 1 = Some image_b ∧
  Some (Img.id image_b) ≠ selectedImage two_images ∧
  images (zoomInImage two_images) !! 1 = Some image_b ∧
  images (zoomOutImage two_images) !! 1 = Some image_b.
Proof.
  destruct (zoom_resizes_selected_only two_images 0 image_a eq_refl)
    as (Hsel & _ & _ & _).
  destruct (zoom_resizes_selected_only two_images 1 image_b eq_refl)
    as (_ & Hother & _ & _).
  destruct (Hsel eq_refl) as (Hin & Hout).
  destruct Hother as (Hin' & Hout'); [discriminate|].
  split; [reflexivity|]. split; [reflexivity|].
  split; [exact Hin|]. split; [exact Hout|].
  split; [reflexivity|]. split; [discriminate|].
  split; [exact Hin' | exact Hout'].
Defined.

Lemma upload_stores_cell_offsets_witness :
  pending (loading pecs1) !! 0 = Some pecs1 ∧
  printMode pecs1 = PECS ∧
  grid_ok pecs1 ∧
  ∃ w' image,
    step (loading pecs1) (ImgLoaded 0 bitmap_a) = Some w' ∧
    images (cur w') = [image] ∧
    printMode (cur w') = PECS ∧
    cols (gridSize (cur w')) ≠ 0%Z ∧
    col (Img.gridPos image) = 1%Z ∧
    Img.x image = ((cellWidth pecs1 - Img.width image) / 2)%Q ∧
    rendered_x (cur w') image =
      (inject_Z (col (Img.gridPos image)) * cellWidth (cur w') + Img.x image)%Q ∧
    ¬ (rendered_x (cur w') image == Img.x image)%Q.
Proof.
  do 2 (split; [reflexivity|]). split; [by split|].
  destruct (upload_stores_cell_offsets (loading pecs1) 0 pecs1 bitmap_a eq_refl)
    as (w' & image & Hs & Hi & Hpecs & _).
  destruct (Hpecs eq_refl) as (Hx & _ & Hr); [by split|].
  assert (Hw' : w' = mkWorld (setImages [newImage pecs1 bitmap_a]
                                (handleFileUpload pecs1)) []).
  { rewrite (img_loaded_step (loading pecs1) 0 pecs1 bitmap_a eq_refl) in Hs.
    by injection Hs as <-. }
  assert (Hi' : image = newImage pecs1 bitmap_a).
  { rewrite Hw' in Hi. by injection Hi as <-. }
  assert (Hm : printMode (cur w') = PECS) by (rewrite Hw'; reflexivity).
  assert (Hc : cols (gridSize (cur w')) ≠ 0%Z) by (rewrite Hw'; discriminate).
  assert (Hcol : col (Img.gridPos image) = 1%Z) by (rewrite Hi'; reflexivity).
  destruct (Hr (cur w') Hm) as (Hrx & _ & Hne & _).
  exists w', image.
  split; [exact Hs|]. split; [exact Hi|]. split; [exact Hm|].
  split; [exact Hc|]. split; [exact Hcol|]. split; [exact Hx|].
  split; [exact Hrx|].
  apply Hne; [exact Hc|]. rewrite Hcol. discriminate.
Defined.

(** * Further properties of the handlers *)

(** ** Deleting *)

Lemma filter_all {A} (P : A → Prop) `{∀ x, Decision (P x)} (l : list A) :
  (∀ x, x ∈ l → P x) → filter P l = l.
Proof.
  intros HP. induction l as [|x l IH]; [done|].
  rewrite filter_cons_True by (apply HP; left).
  f_equal. apply IH. intros y Hy. apply HP. by right.
Qed.

(** X1. [deleteSelectedImage] keeps, in their order, exactly the images
    whose id is not the selected one; it clears the image selection and
    closes the menu; it touches neither the texts nor the text selection.
    With nothing selected the image list is unchanged. *)
Theorem deleteSelectedImage_spec (r : Render) :
  (∀ i, i ∈ images (deleteSelectedImage r) ↔
        i ∈ images r ∧ Some (Img.id i) ≠ selectedImage r) ∧
  images (deleteSelectedImage r) `sublist_of` images r ∧
  selectedImage (deleteSelectedImage r) = None ∧
  contextMenu (deleteSelectedImage r) = None ∧
  texts (deleteSelectedImage r) = texts r ∧
  selectedText (deleteSelectedImage r) = selectedText r ∧
  images (deleteSelectedImage (setSelectedImage None r)) = images r.
Proof.
  split; [|split; [|repeat split]].
  - intros i. simpl. rewrite list_elem_of_filter. tauto.
  - apply sublist_filter.
  - simpl. by apply filter_all.
Qed.

(** X2. [deleteSelectedText] keeps, in their order, exactly the texts whose
    id is not the selected one, so that it removes every text carrying
    that id; it clears the text selection and closes the menu; it touches
    neither the images nor the image selection. *)
Theorem deleteSelectedText_spec (r : Render) :
  (∀ t, t ∈ texts (deleteSelectedText r) ↔
        t ∈ texts r ∧ Some (Txt.id t) ≠ selectedText r) ∧
  texts (deleteSelectedText r) `sublist_of` texts r ∧
  selectedText (deleteSelectedText r) = None ∧
  contextMenu (deleteSelectedText r) = None ∧
  images (deleteSelectedText r) = images r ∧
  selectedImage (deleteSelectedText r) = selectedImage r ∧
  texts (deleteSelectedText (setSelectedText None r)) = texts r.
Proof.
  split; [|split; [|repeat split]].
  - intros t. simpl. rewrite list_elem_of_filter. tauto.
  - apply sublist_filter.
  - simpl. by apply filter_all.
Qed.

(** ** A selection that no image carries *)

Lemma zoomImages_stale f sel (l : list Img.t) :
  (∀ i, i ∈ l → Some (Img.id i) ≠ sel) → zoomImages f sel l = l.
Proof.
  intros Hs. unfold zoomImages. induction l as [|i l IH]; [done|].
  rewrite fmap_cons, bool_decide_eq_false_2 by (apply Hs; left).
  f_equal. apply IH. intros j Hj. apply Hs. by right.
Qed.

(** X3. When no image of the list carries the selected id, zoom in, zoom
    out and delete leave the image list as it is, and [addText], unless
    the selection is [null], throws. *)
Theorem stale_selection_is_inert (r : Render) :
  stale r →
  images (zoomInImage r) = images r ∧
  images (zoomOutImage r) = images r ∧
  images (deleteSelectedImage r) = images r ∧
  (∀ sid, selectedImage r = Some sid → addText r = TypeError).
Proof.
  intros Hs. split; [|split; [|split]].
  - by apply zoomImages_stale.
  - by apply zoomImages_stale.
  - simpl. by apply filter_all.
  - intros sid Hsel. unfold addText. rewrite Hsel, findImage_None; [done|].
    intros i Hi Hid. apply (Hs i Hi). by rewrite Hsel, Hid.
Qed.

Lemma stale_selection_is_inert_witness :
  stale (setImages [image_b] two_images) ∧
  images (zoomInImage (setImages [image_b] two_images)) = [image_b] ∧
  images (deleteSelectedImage (setImages [image_b] two_images)) = [image_b] ∧
  addText (setImages [image_b] two_images) = TypeError.
Proof.
  assert (Hs : stale (setImages [image_b] two_images)).
  { intros i Hi. apply list_elem_of_singleton in Hi as ->. discriminate. }
  destruct (stale_selection_is_inert _ Hs) as (Hin & _ & Hdel & Hadd).
  split; [exact Hs|]. split; [exact Hin|]. split; [exact Hdel|].
  exact (Hadd 0 eq_refl).
Defined.

(** X4. Switching the print mode empties the image list but keeps the
    image selection and the open menu: if an image was selected and the
    menu open, then after the switch Add Text is still offered, throws,
    and leaves the state as it is. *)
Theorem addText_after_mode_change_throws (w : World) (m : PrintMode)
    (sid : nat) (mn : Menu.t) :
  selectedImage (cur w) = Some sid →
  contextMenu (cur w) = Some mn →
  ∃ w1,
    step w (PrintModeChange m) = Some w1 ∧
    selectedImage (cur w1) = Some sid ∧
    contextMenu (cur w1) = Some mn ∧
    addText (cur w1) = TypeError ∧
    step w1 MenuAddText = Some w1.
Proof.
  intros Hsel Hmenu. eexists. split; [reflexivity|].
  simpl. rewrite Hsel, Hmenu. do 2 (split; [done|]).
  assert (Ha : addText (handlePrintModeChange m (cur w)) = TypeError).
  { unfold addText. simpl. by rewrite Hsel. }
  split; [exact Ha|].
  unfold on_menu. simpl. rewrite Hmenu. unfold on_cur. simpl. by rewrite Ha.
Qed.

Lemma addText_after_mode_change_throws_witness :
  ∃ w w1,
    run world0 [FileChosen; ImgLoaded 0 bitmap_a; ContextMenuImage 0 40 40] = Some w ∧
    selectedImage (cur w) = Some 0 ∧
    contextMenu (cur w) = Some (Menu.mk 40 40) ∧
    step w (PrintModeChange PECS) = Some w1 ∧
    addText (cur w1) = TypeError ∧
    step w1 MenuAddText = Some w1.
Proof.
  eexists.
  match goal with
  | |- ∃ w1, ?R = Some ?w ∧ _ =>
      assert (Hrun : R = Some w) by (vm_compute; reflexivity)
  end.
  match type of Hrun with
  | _ = Some ?w =>
      destruct (addText_after_mode_change_throws w PECS 0 (Menu.mk 40 40)
                  eq_refl eq_refl) as (w1 & Hs & _ & _ & Ha & Hs');
      exists w1;
      split; [exact Hrun|]; split; [reflexivity|]; split; [reflexivity|];
      split; [exact Hs|]; split; [exact Ha | exact Hs']
  end.
Defined.

(** ** Text ids while nothing is deleted *)

Lemma fmap_id_update (f : Txt.t → Txt.t) (g : Txt.t → bool) (l : list Txt.t) :
  (∀ t, Txt.id (f t) = Txt.id t) →
  Txt.id <$> ((λ t, if g t then f t else t) <$> l) = Txt.id <$> l.
Proof.
  intros Hf. rewrite <- list_fmap_compose. apply list_fmap_ext.
  intros _ t _. simpl. by destruct (g t).
Qed.

Lemma handleTextChange_ids id a r :
  Txt.id <$> texts (handleTextChange id a r) = Txt.id <$> texts r.
Proof. simpl. by apply (fmap_id_update (Txt.merge a) (λ t, bool_decide (Txt.id t = id))). Qed.

Lemma handleTextEdit_ids id s r :
  Txt.id <$> texts (handleTextEdit id s r) = Txt.id <$> texts r.
Proof. simpl. by apply (fmap_id_update (Txt.with_text s) (λ t, bool_decide (Txt.id t = id))). Qed.

(** The ids of the texts are [0, 1, ..., n - 1], in this order. *)
Lemma step_text_ids w e w' :
  e ≠ MenuDeleteText →
  step w e = Some w' →
  Txt.id <$> texts (cur w) = seq 0 (length (texts (cur w))) →
  Txt.id <$> texts (cur w') = seq 0 (length (texts (cur w'))).
Proof.
  intros Hne Hs Hids.
  destruct e; try done; step_inv Hs; subst; simpl; try done.
  - destruct input as [s|]; [|done].
    rewrite handleTextEdit_ids. simpl. by rewrite length_fmap.
  - unfold ClippedImage.onDragEnd. by destruct (images (cur w) !! index).
  - rewrite (fmap_id_update (Txt.merge _) (λ t, bool_decide (Txt.id t = _)))
      by done. by rewrite length_fmap.
  - rewrite (fmap_id_update (Txt.merge _) (λ t, bool_decide (Txt.id t = _)))
      by done. by rewrite length_fmap.
  - by destruct targetIsStage.
  - unfold addText. destruct (selectedImage (cur w)) as [sid|]; [|done].
    destruct (findImage sid (images (cur w))) as [image|]; [|done].
    simpl. rewrite fmap_app, length_app, Hids. simpl.
    by rewrite Nat.add_1_r, seq_S.
Qed.

(** X5. As long as Delete Text is never used, the ids of the texts are
    [0, 1, ..., n - 1] in list order, whatever else happens (adding,
    editing, dragging and transforming texts, uploads, mode switches): in
    particular no two texts share an id. *)
Theorem text_ids_without_delete (es : list Event) (w : World) :
  Forall (λ e, e ≠ MenuDeleteText) es →
  run world0 es = Some w →
  Txt.id <$> texts (cur w) = seq 0 (length (texts (cur w))) ∧
  NoDup (Txt.id <$> texts (cur w)).
Proof.
  intros Hes Hrun.
  assert (Hids : Txt.id <$> texts (cur w) = seq 0 (length (texts (cur w)))).
  { assert (H0 : Txt.id <$> texts (cur world0)
                 = seq 0 (length (texts (cur world0)))) by done.
    revert Hes Hrun H0. generalize world0.
    induction es as [|e es IH]; intros w0 Hes Hrun H0; simpl in Hrun.
    - by injection Hrun as <-.
    - apply Forall_cons in Hes as [He Hes].
      destruct (step w0 e) as [w1|] eqn:Hs; simpl in Hrun; [|done].
      eapply IH; [done..|]. by eapply step_text_ids. }
  split; [done|]. rewrite Hids. apply NoDup_seq.
Qed.

Lemma text_ids_without_delete_witness :
  ∃ w,
    Forall (λ e, e ≠ MenuDeleteText)
      [FileChosen; ImgLoaded 0 bitmap_a;
       ContextMenuImage 0 40 40; MenuAddText;
       ContextMenuImage 0 40 40; MenuAddText;
       DragText 0 5 5; DblClickText 1 (Some "label")] ∧
    run world0
      [FileChosen; ImgLoaded 0 bitmap_a;
       ContextMenuImage 0 40 40; MenuAddText;
       ContextMenuImage 0 40 40; MenuAddText;
       DragText 0 5 5; DblClickText 1 (Some "label")] = Some w ∧
    Txt.id <$> texts (cur w) = [0; 1] ∧
    NoDup (Txt.id <$> texts (cur w)).
Proof.
  eexists.
  match goal with
  | |- ?F ∧ ?R = Some ?w ∧ _ =>
      assert (Hes : F) by (repeat constructor; discriminate);
      assert (Hrun : R = Some w) by (vm_compute; reflexivity)
  end.
  match type of Hrun with
  | _ = Some ?w =>
      destruct (text_ids_without_delete _ w Hes Hrun) as (Hids & Hnd);
      split; [exact Hes|]; split; [exact Hrun|];
      split; [exact Hids | exact Hnd]
  end.
Defined.

(** ** Editing, moving and transforming a text *)

(** X6. [handleTextEdit] and [handleTextChange] update exactly the texts
    that carry the given id and leave every other text, the order and the
    length of the list as they are.  An edit replaces the string and keeps
    position, width, rotation and id; a change replaces the attributes it
    is given and keeps the others, the string and the id. *)
Theorem text_update_frame (r : Render) (id : nat) (k : nat) (t : Txt.t)
    (s : string) (a : Txt.attrs) :
  texts r !! k = Some t →
  (Txt.id t = id →
     (∃ t', texts (handleTextEdit id s r) !! k = Some t' ∧
            Txt.text t' = s ∧ Txt.x t' = Txt.x t ∧ Txt.y t' = Txt.y t ∧
            Txt.width t' = Txt.width t ∧ Txt.rotation t' = Txt.rotation t ∧
            Txt.id t' = Txt.id t) ∧
     (∃ t', texts (handleTextChange id a r) !! k = Some t' ∧
            Txt.x t' = default (Txt.x t) (Txt.ax a) ∧
            Txt.y t' = default (Txt.y t) (Txt.ay a) ∧
            Txt.width t' = default (Txt.width t) (Txt.awidth a) ∧
            Txt.rotation t' = default (Txt.rotation t) (Txt.arotation a) ∧
            Txt.text t' = Txt.text t ∧ Txt.id t' = Txt.id t)) ∧
  (Txt.id t ≠ id →
     texts (handleTextEdit id s r) !! k = Some t ∧
     texts (handleTextChange id a r) !! k = Some t) ∧
  length (texts (handleTextEdit id s r)) = length (texts r) ∧
  length (texts (handleTextChange id a r)) = length (texts r) ∧
  images (handleTextEdit id s r) = images r ∧
  images (handleTextChange id a r) = images r.
Proof.
  intros Hk. simpl. rewrite !list_lookup_fmap, Hk, !length_fmap. simpl.
  split; [|split; [|done]].
  - intros Hid. rewrite !bool_decide_eq_true_2 by done.
    split; eexists; (split; [reflexivity|]); by repeat split.
  - intros Hid. by rewrite !bool_decide_eq_false_2.
Qed.

Lemma text_update_frame_witness :
  ∃ t0 t1,
    let r := setTexts [t0; t1] initial in
    Txt.id t0 = 0 ∧ Txt.id t1 = 1 ∧
    texts r !! 0 = Some t0 ∧ texts r !! 1 = Some t1 ∧
    (∃ t', texts (handleTextEdit 0 "label" r) !! 0 = Some t' ∧
           Txt.text t' = "label" ∧ Txt.x t' = Txt.x t0) ∧
    texts (handleTextEdit 0 "label" r) !! 1 = Some t1.
Proof.
  exists (Txt.mk 0 10 106 "Sample Text" 100 0), (Txt.mk 1 10 106 "Sample Text" 100 0).
  cbn zeta.
  set (t0 := Txt.mk 0 10 106 "Sample Text" 100 0).
  set (t1 := Txt.mk 1 10 106 "Sample Text" 100 0).
  set (r := setTexts [t0; t1] initial).
  destruct (text_update_frame r 0 0 t0 "label" (Txt.mkAttrs None None None None) eq_refl)
    as (Hsame & _).
  destruct (text_update_frame r 0 1 t1 "label" (Txt.mkAttrs None None None None) eq_refl)
    as (_ & Hother & _).
  destruct (Hsame eq_refl) as ((t' & Hl & Ht & Hx & _) & _).
  destruct Hother as (Hkeep & _); [discriminate|].
  do 4 (split; [reflexivity|]).
  split; [exists t'; split; [exact Hl|]; split; [exact Ht | exact Hx]|].
  exact Hkeep.
Defined.

(** ** Dragging an image *)

(** X7. Dropping the image at [index] replaces the [x] and [y] of that one
    list element by the drop position, whatever it is, and keeps its other
    fields; every other element, also one with the same id, the length of
    the list, the texts and the selections stay as they are. *)
Theorem onDragEnd_spec (r : Render) (index : nat) (image : Img.t) (x' y' : Q) :
  images r !! index = Some image →
  let r' := ClippedImage.onDragEnd index x' y' r in
  (∃ i', images r' !! index = Some i' ∧
         Img.x i' = x' ∧ Img.y i' = y' ∧
         Img.width i' = Img.width image ∧ Img.height i' = Img.height image ∧
         Img.id i' = Img.id image ∧ Img.gridPos i' = Img.gridPos image ∧
         Img.src i' = Img.src image) ∧
  (∀ k, k ≠ index → images r' !! k = images r !! k) ∧
  length (images r') = length (images r) ∧
  texts r' = texts r ∧
  selectedImage r' = selectedImage r ∧
  selectedText r' = selectedText r.
Proof.
  intros Hk. cbn zeta. unfold ClippedImage.onDragEnd. rewrite Hk. simpl.
  split; [|split; [|by rewrite length_insert]].
  - exists (Img.with_xy x' y' image). split; [| by repeat split].
    apply list_lookup_insert_eq. by eapply lookup_lt_Some.
  - intros k Hne. by apply list_lookup_insert_ne.
Qed.

Lemma onDragEnd_spec_witness :
  images two_images !! 1 = Some image_b ∧
  (∃ i', images (ClippedImage.onDragEnd 1 (-500) 1000 two_images) !! 1 = Some i' ∧
         Img.x i' = (-500)%Q ∧ Img.y i' = 1000%Q ∧ Img.width i' = Img.width image_b) ∧
  images (ClippedImage.onDragEnd 1 (-500) 1000 two_images) !! 0 = Some image_a.
Proof.
  destruct (onDragEnd_spec two_images 1 image_b (-500) 1000 eq_refl)
    as ((i' & Hl & Hx & Hy & Hw & _) & Hother & _).
  split; [reflexivity|].
  split; [exists i'; split; [exact Hl|]; split; [exact Hx|]; split; [exact Hy | exact Hw]|].
  rewrite (Hother 0) by discriminate. reflexivity.
Defined.

(** ** The context menu *)

(** X8. The items of the menu exist only while it is open, and every item
    closes it: Delete, Zoom In, Zoom Out and Delete Text always, Add Text
    whenever it returns.  So after one item has run, no item can run
    until the menu is opened again.  When Add Text throws, the menu stays
    open and the state is as before. *)
Theorem menu_item_closes_menu (w w' : World) (e : Event) :
  menu_event e →
  step w e = Some w' →
  is_Some (contextMenu (cur w)) ∧
  ((e = MenuAddText → addText (cur w) ≠ TypeError) →
     contextMenu (cur w') = None ∧
     ∀ e', menu_event e' → step w' e' = None) ∧
  (e = MenuAddText → addText (cur w) = TypeError → w' = w).
Proof.
  intros He Hs.
  assert (Hclosed : ∀ w0, contextMenu (cur w0) = None →
                     ∀ e', menu_event e' → step w0 e' = None).
  { intros w0 Hc e' He'. destruct e'; try done; simpl; unfold on_menu;
      by rewrite Hc. }
  destruct e; try done; step_inv Hs; subst; (split; [done|]); split;
    try (intros _; split; [done | by apply Hclosed]); try done.
  - intros Hok. specialize (Hok eq_refl).
    assert (Hc : contextMenu
                   match addText (cur w) with Done r' => r' | TypeError => cur w end
                 = None).
    { unfold addText in *. destruct (selectedImage (cur w)) as [sid|]; [|done].
      by destruct (findImage sid (images (cur w))). }
    split; [done | by apply Hclosed].
  - intros _ Ha. rewrite Ha. by destruct w.
Qed.

Lemma menu_item_closes_menu_witness :
  ∃ w w',
    run world0 [FileChosen; ImgLoaded 0 bitmap_a; ContextMenuImage 0 40 40] = Some w ∧
    menu_event MenuZoomIn ∧
    step w MenuZoomIn = Some w' ∧
    contextMenu (cur w') = None ∧
    step w' MenuZoomOut = None.
Proof.
  eexists.
  match goal with
  | |- ∃ w', ?R = Some ?w ∧ _ =>
      assert (Hrun : R = Some w) by (vm_compute; reflexivity)
  end.
  match type of Hrun with
  | _ = Some ?w =>
      assert (Hs : ∃ w', step w MenuZoomIn = Some w') by (eexists; reflexivity);
      destruct Hs as (w' & Hs);
      destruct (menu_item_closes_menu w w' MenuZoomIn I Hs) as (_ & Hclose & _);
      destruct Hclose as (Hc & Hno); [discriminate|];
      exists w';
      split; [exact Hrun|]; split; [exact I|]; split; [exact Hs|];
      split; [exact Hc | exact (Hno MenuZoomOut I)]
  end.
Defined.

(** ** Page and grid *)

(** X9. For both page sizes, the landscape canvas is the portrait canvas
    with width and height exchanged; the portrait canvas is higher than
    wide; and the canvas depends on nothing but the two props. *)
Theorem canvasDimensions_orientation (r : Render) :
  Dim.width (canvasDimensions (setOrientation landscape r)) =
    Dim.height (canvasDimensions (setOrientation portrait r)) ∧
  Dim.height (canvasDimensions (setOrientation landscape r)) =
    Dim.width (canvasDimensions (setOrientation portrait r)) ∧
  (0 < Dim.width (canvasDimensions (setOrientation portrait r))
     < Dim.height (canvasDimensions (setOrientation portrait r)))%Q ∧
  (∀ r', pageSize r' = pageSize r → orientation r' = orientation r →
         canvasDimensions r' = canvasDimensions r).
Proof.
  split; [done|]. split; [done|]. split.
  - unfold canvasDimensions, baseDimensions. simpl.
    destruct (pageSize r); simpl; split; reflexivity.
  - intros r' Hp Ho. unfold canvasDimensions, baseDimensions. by rewrite Hp, Ho.
Qed.

Lemma canvasDimensions_orientation_witness :
  canvasDimensions (setOrientation landscape initial) = Dim.mk 297 210 ∧
  canvasDimensions (setImages [image_a] initial) = canvasDimensions initial.
Proof.
  destruct (canvasDimensions_orientation initial) as (_ & _ & _ & Hprops).
  split; [reflexivity|]. exact (Hprops (setImages [image_a] initial) eq_refl eq_refl).
Defined.

(** ** Grid lines *)

Lemma string_app_inj (p s1 s2 : string) : p +:+ s1 = p +:+ s2 → s1 = s2.
Proof. induction p as [|c p IH]; simpl; [done|]. intros [= Heq]. by apply IH. Qed.

Lemma NoDup_line_keys (p : string) (f : Z → Line.t) (m n : Z) :
  (∀ i, Line.key (f i) = p +:+ pretty i) →
  NoDup (Line.key <$> (f <$> seqZ m n)).
Proof.
  intros Hf. rewrite <- list_fmap_compose.
  apply NoDup_fmap_2; [|apply NoDup_seqZ].
  intros i j Hij. simpl in Hij. rewrite !Hf in Hij.
  apply string_app_inj in Hij. by apply (inj pretty) in Hij.
Qed.

Lemma grid_boundary_inside (W : Q) (n i : Z) :
  (0 < W)%Q → (1 ≤ i < n)%Z →
  (0 < inject_Z i * (W / inject_Z n) < W)%Q.
Proof.
  intros HW [Hi Hn].
  assert (Hn' : (0 < inject_Z n)%Q) by (apply inject_Z_pos; lia).
  assert (Hi' : (0 < inject_Z i)%Q) by (apply inject_Z_pos; lia).
  assert (Hin : (inject_Z i < inject_Z n)%Q) by (by rewrite <- Zlt_Qlt).
  assert (Hc : (0 < W / inject_Z n)%Q) by (apply Qlt_shift_div_l; lra).
  assert (E : (inject_Z n * (W / inject_Z n) == W)%Q) by (field; lra).
  split; [by apply Qmult_lt_0_compat|].
  rewrite <- E at 2. by apply Qmult_lt_compat_r.
Qed.

(** X11. [drawGrid] draws [rows - 1] horizontal lines followed by
    [cols - 1] vertical ones (none for a count of one or less).  The
    horizontal line [i] runs from [(0, i * cellHeight)] to
    [(pageWidth, i * cellHeight)], the vertical line [j] from
    [(j * cellWidth, 0)] to [(j * cellWidth, pageHeight)], for
    [1 <= i < rows] and [1 <= j < cols], and every line lies strictly
    between two edges of the page.  No two lines share a key. *)
Theorem drawGrid_lines (r : Render) :
  length (drawGrid r)
    = (Z.to_nat (rows (gridSize r) - 1) + Z.to_nat (cols (gridSize r) - 1))%nat ∧
  (∀ l, l ∈ drawGrid r ↔
     (∃ i, (1 ≤ i < rows (gridSize r))%Z ∧
           l = Line.mk ("h-" +:+ pretty i)
                 [0%Q; (inject_Z i * cellHeight r)%Q;
                  Dim.width (canvasDimensions r); (inject_Z i * cellHeight r)%Q]
                 "black" 0.5%Q) ∨
     (∃ j, (1 ≤ j < cols (gridSize r))%Z ∧
           l = Line.mk ("v-" +:+ pretty j)
                 [(inject_Z j * cellWidth r)%Q; 0%Q;
                  (inject_Z j * cellWidth r)%Q; Dim.height (canvasDimensions r)]
                 "black" 0.5%Q)) ∧
  (∀ i, (1 ≤ i < rows (gridSize r))%Z →
        (0 < inject_Z i * cellHeight r < Dim.height (canvasDimensions r))%Q) ∧
  (∀ j, (1 ≤ j < cols (gridSize r))%Z →
        (0 < inject_Z j * cellWidth r < Dim.width (canvasDimensions r))%Q) ∧
  NoDup (Line.key <$> drawGrid r).
Proof.
  destruct (canvasDimensions_pos r) as [Hw Hh].
  unfold drawGrid. split; [|split; [|split; [|split]]].
  - by rewrite length_app, !length_fmap, !length_seqZ.
  - intros l. rewrite elem_of_app, !list_elem_of_fmap.
    setoid_rewrite elem_of_seqZ.
    split; (intros [(i & H1 & H2)|(j & H1 & H2)];
              [left; exists i | right; exists j]; split; try done; lia).
  - intros i Hi. by apply grid_boundary_inside.
  - intros j Hj. by apply grid_boundary_inside.
  - rewrite fmap_app. apply NoDup_app. split; [|split].
    + by apply (NoDup_line_keys "h-").
    + intros k Hh' Hv.
      apply list_elem_of_fmap in Hh' as (l1 & -> & Hl1).
      apply list_elem_of_fmap in Hv as (l2 & Hk & Hl2).
      apply list_elem_of_fmap in Hl1 as (i & -> & _).
      apply list_elem_of_fmap in Hl2 as (j & -> & _).
      simpl in Hk. discriminate.
    + by apply (NoDup_line_keys "v-").
Qed.

Lemma drawGrid_lines_witness :
  length (drawGrid initial) = 5 ∧
  (1 ≤ 2 < rows (gridSize initial))%Z ∧
  (0 < inject_Z 2 * cellHeight initial < Dim.height (canvasDimensions initial))%Q ∧
  Line.mk "h-2" [0%Q; (inject_Z 2 * cellHeight initial)%Q;
                 Dim.width (canvasDimensions initial);
                 (inject_Z 2 * cellHeight initial)%Q] "black" 0.5%Q
    ∈ drawGrid initial.
Proof.
  destruct (drawGrid_lines initial) as (Hlen & Hin & Hrow & _).
  split; [exact Hlen|]. split; [simpl; lia|].
  split; [apply Hrow; simpl; lia|].
  apply Hin. left. exists 2%Z. split; [simpl; lia | reflexivity].
Defined.

(** X12. In every reachable state the grid has neither zero rows nor zero
    columns, and so has the grid of every upload in flight: an empty,
    non-numeric or zero input falls back to 5 columns or 4 rows.  Any other
    integer, also a negative one, is taken as it is, and the other
    dimension is kept. *)
Theorem grid_inputs_never_zero :
  (∀ w, reachable w → grid_ok (cur w) ∧ Forall grid_ok (pending w)) ∧
  (∀ r, cols (gridSize (onColsChange None r)) = 5%Z ∧
        cols (gridSize (onColsChange (Some 0%Z) r)) = 5%Z ∧
        rows (gridSize (onRowsChange None r)) = 4%Z ∧
        rows (gridSize (onRowsChange (Some 0%Z) r)) = 4%Z) ∧
  (∀ z r, z ≠ 0%Z →
          gridSize (onColsChange (Some z) r) = mkGrid (rows (gridSize r)) z ∧
          gridSize (onRowsChange (Some z) r) = mkGrid z (cols (gridSize r))).
Proof.
  split; [exact reachable_grid_ok|]. split; [done|].
  intros z r Hz. simpl. unfold parseInt_or.
  by destruct (Z.eqb_spec z 0).
Qed.

Lemma grid_inputs_never_zero_witness :
  ∃ w,
    run world0 [PrintModeChange PECS; ColsInput (Some 0%Z); RowsInput None;
                ColsInput (Some (-3)%Z)] = Some w ∧
    reachable w ∧
    gridSize (cur w) = mkGrid 4 (-3) ∧
    grid_ok (cur w).
Proof.
  eexists.
  match goal with
  | |- ?R = Some ?w ∧ _ =>
      assert (Hrun : R = Some w) by (vm_compute; reflexivity)
  end.
  match type of Hrun with
  | _ = Some ?w =>
      assert (Hreach : reachable w) by exact (run_reachable _ _ _ reach_init Hrun);
      destruct grid_inputs_never_zero as (Hinv & _);
      destruct (Hinv w Hreach) as (Hok & _);
      split; [exact Hrun|]; split; [exact Hreach|];
      split; [reflexivity | exact Hok]
  end.
Defined.

(** X13. Changing the columns, the rows, the page size or the orientation
    changes nothing else: the stored images (position, size and grid cell
    included), the texts, both selections, the menu, the mode and the
    uploads in flight are as before.  Nothing is laid out again. *)
Theorem layout_change_keeps_content (w w' : World) (e : Event) :
  layout_event e →
  step w e = Some w' →
  images (cur w') = images (cur w) ∧
  texts (cur w') = texts (cur w) ∧
  selectedImage (cur w') = selectedImage (cur w) ∧
  selectedText (cur w') = selectedText (cur w) ∧
  contextMenu (cur w') = contextMenu (cur w) ∧
  printMode (cur w') = printMode (cur w) ∧
  pending w' = pending w.
Proof.
  intros He Hs. destruct e; try done; step_inv Hs; by subst.
Qed.

Lemma layout_change_keeps_content_witness :
  ∃ w',
    layout_event (ColsInput (Some 2%Z)) ∧
    step (mkWorld pecs1 []) (ColsInput (Some 2%Z)) = Some w' ∧
    images (cur w') = [image_b] ∧
    cols (gridSize (cur w')) = 2%Z.
Proof.
  assert (Hs : ∃ w', step (mkWorld pecs1 []) (ColsInput (Some 2%Z)) = Some w')
    by (eexists; reflexivity).
  destruct Hs as (w' & Hs).
  destruct (layout_change_keeps_content (mkWorld pecs1 []) w'
              (ColsInput (Some 2%Z)) I Hs) as (Hi & _).
  exists w'. split; [exact I|]. split; [exact Hs|]. split; [exact Hi|].
  vm_compute in Hs. injection Hs as <-. reflexivity.
Defined.

(** ** The cell of an upload and the grid *)

(** X17. With positive rows and columns, the column of the cell that an
    upload gets is always a column of the grid, and its row is a row of
    the grid exactly when the list held fewer than [rows * cols] images
    at the moment the file was chosen; otherwise the cell lies below the
    grid. *)
Theorem upload_cell_in_grid (w : World) (k : nat) (r : Render) (img : Bitmap.t) :
  pending w !! k = Some r →
  (0 < rows (gridSize r))%Z →
  (0 < cols (gridSize r))%Z →
  ∃ w' image,
    step w (ImgLoaded k img) = Some w' ∧
    images (cur w') = images (cur w) ++ [image] ∧
    (0 ≤ col (Img.gridPos image) < cols (gridSize r))%Z ∧
    (0 ≤ row (Img.gridPos image))%Z ∧
    ((row (Img.gridPos image) < rows (gridSize r))%Z ↔
     (Z.of_nat (length (images r)) < rows (gridSize r) * cols (gridSize r))%Z).
Proof.
  intros Hk Hrows Hcols.
  eexists _, _. split; [by apply img_loaded_step|]. split; [reflexivity|].
  rewrite newImage_gridPos. cbn [row col].
  rewrite Z.rem_mod_nonneg by lia.
  set (n := Z.of_nat (length (images r))).
  assert (Hn : (0 ≤ n)%Z) by (subst n; lia).
  pose proof (Z.mod_pos_bound n _ Hcols).
  pose proof (Z.div_mod n (cols (gridSize r)) ltac:(lia)).
  assert (0 ≤ n `div` cols (gridSize r))%Z by (apply Z.div_pos; lia).
  split; [lia|]. split; [lia|].
  split; intros; nia.
Qed.

Lemma upload_cell_in_grid_witness :
  let r := onRowsChange (Some 1%Z) (onColsChange (Some 1%Z) pecs1) in
  pending (loading r) !! 0 = Some r ∧
  (0 < rows (gridSize r))%Z ∧
  (0 < cols (gridSize r))%Z ∧
  ∃ w' image,
    step (loading r) (ImgLoaded 0 bitmap_a) = Some w' ∧
    images (cur w') = [image] ∧
    col (Img.gridPos image) = 0%Z ∧
    ¬ (row (Img.gridPos image) < rows (gridSize r))%Z.
Proof.
  cbn zeta.
  set (r := onRowsChange (Some 1%Z) (onColsChange (Some 1%Z) pecs1)).
  do 3 (split; [reflexivity|]).
  destruct (upload_cell_in_grid (loading r) 0 r bitmap_a)
    as (w' & image & Hs & Hi & Hcol & _ & Hrow); [reflexivity..|].
  exists w', image. split; [exact Hs|]. split; [exact Hi|].
  split.
  - change (cols (gridSize r)) with 1%Z in Hcol. lia.
  - intros Hlt. apply Hrow in Hlt. vm_compute in Hlt. discriminate.
Defined.

(** ** Right click, then a menu item *)

(** X18. A right click on an image followed by Delete removes that image
    and every other image with its id, and nothing else: the texts stay,
    both selections are empty and the menu is closed.  A right click on a
    text followed by Delete Text does the same to the texts and keeps the
    images. *)
Theorem right_click_delete (w : World) (index : nat) (cx cy : Z) :
  (∀ image, images (cur w) !! index = Some image →
     ∃ w1 w2,
       step w (ContextMenuImage index cx cy) = Some w1 ∧
       step w1 MenuDelete = Some w2 ∧
       (∀ i, i ∈ images (cur w2) ↔
             i ∈ images (cur w) ∧ Img.id i ≠ Img.id image) ∧
       texts (cur w2) = texts (cur w) ∧
       selectedImage (cur w2) = None ∧
       selectedText (cur w2) = None ∧
       contextMenu (cur w2) = None) ∧
  (∀ t, texts (cur w) !! index = Some t →
     ∃ w1 w2,
       step w (ContextMenuText index cx cy) = Some w1 ∧
       step w1 MenuDeleteText = Some w2 ∧
       (∀ t', t' ∈ texts (cur w2) ↔
              t' ∈ texts (cur w) ∧ Txt.id t' ≠ Txt.id t) ∧
       images (cur w2) = images (cur w) ∧
       selectedImage (cur w2) = None ∧
       selectedText (cur w2) = None ∧
       contextMenu (cur w2) = None).
Proof.
  split.
  - intros image Hk. eexists _, _.
    split; [simpl; unfold on_item; rewrite Hk; reflexivity|].
    split; [reflexivity|]. simpl.
    split; [|done]. intros i. rewrite list_elem_of_filter.
    split; intros [H1 H2]; split; done || congruence.
  - intros t Hk. eexists _, _.
    split; [simpl; unfold on_item; rewrite Hk; reflexivity|].
    split; [reflexivity|]. simpl.
    split; [|done]. intros t'. rewrite list_elem_of_filter.
    split; intros [H1 H2]; split; done || congruence.
Qed.

Lemma right_click_delete_witness :
  images (cur (mkWorld two_images [])) !! 1 = Some image_b ∧
  ∃ w1 w2,
    step (mkWorld two_images []) (ContextMenuImage 1 40 40) = Some w1 ∧
    step w1 MenuDelete = Some w2 ∧
    image_a ∈ images (cur w2) ∧
    image_b ∉ images (cur w2).
Proof.
  split; [reflexivity|].
  destruct (right_click_delete (mkWorld two_images []) 1 40 40) as (Himg & _).
  destruct (Himg image_b eq_refl) as (w1 & w2 & H1 & H2 & Hin & _).
  exists w1, w2. split; [exact H1|]. split; [exact H2|]. split.
  - apply Hin. split; [left | discriminate].
  - intros Hb. apply Hin in Hb as [_ Hne]. by apply Hne.
Defined.

(** X19. In a menu opened by a right click on a text no image is
    selected: Add Text adds nothing, and Delete, Zoom In and Zoom Out
    change no image; each of them only closes the menu. *)
Theorem text_menu_image_items (w : World) (index : nat) (cx cy : Z) (t : Txt.t)
    (e : Event) :
  texts (cur w) !! index = Some t →
  e = MenuAddText ∨ e = MenuDelete ∨ e = MenuZoomIn ∨ e = MenuZoomOut →
  ∃ w1 w2,
    step w (ContextMenuText index cx cy) = Some w1 ∧
    step w1 e = Some w2 ∧
    images (cur w2) = images (cur w) ∧
    texts (cur w2) = texts (cur w) ∧
    selectedText (cur w2) = Some (Txt.id t) ∧
    contextMenu (cur w2) = None.
Proof.
  intros Hk He.
  destruct He as [-> | [-> | [-> | ->]]]; eexists _, _;
    (split; [simpl; unfold on_item; rewrite Hk; reflexivity|]);
    (split; [reflexivity|]); simpl; (split; [|done]).
  - done.
  - by apply filter_all.
  - by apply zoomImages_stale.
  - by apply zoomImages_stale.
Qed.

Lemma text_menu_image_items_witness :
  ∃ t0 w1 w2,
    texts (cur (mkWorld (setTexts [t0] two_images) [])) !! 0 = Some t0 ∧
    step (mkWorld (setTexts [t0] two_images) []) (ContextMenuText 0 20 20) = Some w1 ∧
    step w1 MenuAddText = Some w2 ∧
    texts (cur w2) = [t0] ∧
    images (cur w2) = [image_a; image_b].
Proof.
  exists (Txt.mk 0 10 106 "Sample Text" 100 0).
  destruct (text_menu_image_items
              (mkWorld (setTexts [Txt.mk 0 10 106 "Sample Text" 100 0] two_images) [])
              0 20 20 (Txt.mk 0 10 106 "Sample Text" 100 0) MenuAddText eq_refl)
    as (w1 & w2 & H1 & H2 & Hi & Ht & _); [by left|].
  exists w1, w2. split; [reflexivity|]. split; [exact H1|]. split; [exact H2|].
  split; [exact Ht | exact Hi].
Defined.

(** ** What selecting and uploading leave alone *)

(** X20. A click on an image or a text, a right click, a mouse press on
    the stage and the Print button change the selections and the menu at
    most: images, texts, mode, grid, page and the uploads in flight are as
    before.  Print clears both selections and leaves the menu as it is. *)
Theorem selection_event_keeps_content (w w' : World) (e : Event) :
  selection_event e →
  step w e = Some w' →
  images (cur w') = images (cur w) ∧
  texts (cur w') = texts (cur w) ∧
  printMode (cur w') = printMode (cur w) ∧
  gridSize (cur w') = gridSize (cur w) ∧
  pageSize (cur w') = pageSize (cur w) ∧
  orientation (cur w') = orientation (cur w) ∧
  pending w' = pending w ∧
  (e = PrintClick →
     selectedImage (cur w') = None ∧ selectedText (cur w') = None ∧
     contextMenu (cur w') = contextMenu (cur w)).
Proof.
  intros He Hs. destruct e; try done; step_inv Hs; subst; simpl;
    try by repeat split.
  - by destruct targetIsStage.
Qed.

Lemma selection_event_keeps_content_witness :
  ∃ w w',
    run world0 [FileChosen; ImgLoaded 0 bitmap_a; ContextMenuImage 0 40 40] = Some w ∧
    selection_event PrintClick ∧
    step w PrintClick = Some w' ∧
    images (cur w') = images (cur w) ∧
    selectedImage (cur w') = None ∧
    contextMenu (cur w') = Some (Menu.mk 40 40).
Proof.
  eexists.
  match goal with
  | |- ∃ w', ?R = Some ?w ∧ _ =>
      assert (Hrun : R = Some w) by (vm_compute; reflexivity)
  end.
  match type of Hrun with
  | _ = Some ?w =>
      assert (Hs : ∃ w', step w PrintClick = Some w') by (eexists; reflexivity);
      destruct Hs as (w' & Hs);
      destruct (selection_event_keeps_content w w' PrintClick I Hs)
        as (Hi & _ & _ & _ & _ & _ & _ & Hp);
      destruct (Hp eq_refl) as (Hsel & _ & Hmenu);
      exists w';
      split; [exact Hrun|]; split; [exact I|]; split; [exact Hs|];
      split; [exact Hi|]; split; [exact Hsel | exact Hmenu]
  end.
Defined.

(** X21. Neither choosing a file nor the arrival of its image touches the
    texts, the selections, the menu, the mode, the grid or the page: the
    texts added to an image stay when the image is replaced, and an image
    selection made before the upload is kept, although no image carries
    the selected id once the list has been emptied. *)
Theorem upload_keeps_texts_and_selection (w w' : World) (e : Event) :
  upload_event e →
  step w e = Some w' →
  texts (cur w') = texts (cur w) ∧
  selectedImage (cur w') = selectedImage (cur w) ∧
  selectedText (cur w') = selectedText (cur w) ∧
  contextMenu (cur w') = contextMenu (cur w) ∧
  printMode (cur w') = printMode (cur w) ∧
  gridSize (cur w') = gridSize (cur w) ∧
  pageSize (cur w') = pageSize (cur w) ∧
  orientation (cur w') = orientation (cur w) ∧
  (e = FileChosen → stale (cur w')).
Proof.
  intros He Hs. destruct e; try done; step_inv Hs; subst; simpl.
  - repeat split; try done. intros _ i Hi. simpl in Hi. by apply elem_of_nil in Hi.
  - by repeat split.
Qed.

Lemma upload_keeps_texts_and_selection_witness :
  ∃ w w',
    run world0 [FileChosen; ImgLoaded 0 bitmap_a;
                ContextMenuImage 0 40 40; MenuAddText; ClickImage 0] = Some w ∧
    upload_event FileChosen ∧
    step w FileChosen = Some w' ∧
    length (texts (cur w')) = 1 ∧
    selectedImage (cur w') = Some 0 ∧
    images (cur w') = [] ∧
    stale (cur w').
Proof.
  eexists.
  match goal with
  | |- ∃ w', ?R = Some ?w ∧ _ =>
      assert (Hrun : R = Some w) by (vm_compute; reflexivity)
  end.
  match type of Hrun with
  | _ = Some ?w =>
      assert (Hs : ∃ w', step w FileChosen = Some w') by (eexists; reflexivity);
      destruct Hs as (w' & Hs);
      destruct (upload_keeps_texts_and_selection w w' FileChosen I Hs)
        as (Ht & Hsel & _ & _ & _ & _ & _ & _ & Hstale);
      exists w';
      split; [exact Hrun|]; split; [exact I|]; split; [exact Hs|];
      split; [rewrite Ht; reflexivity|];
      split; [rewrite Hsel; reflexivity|];
      split; [injection Hs as <-; reflexivity | exact (Hstale eq_refl)]
  end.
Defined.

(** ** Where a new text lands *)



(** ** At most one selection *)

(** X22. In every reachable state at most one of [selectedImage] and
    [selectedText] is set.  [handleSelectImage] sets the image selection
    and clears the text selection; [handleSelectText] does the converse;
    a right click on an image or on a text does the same and opens the
    menu. *)
Theorem selection_at_most_one :
  (∀ w, reachable w →
        selectedImage (cur w) = None ∨ selectedText (cur w) = None) ∧
  (∀ id r, selectedImage (handleSelectImage id r) = Some id ∧
           selectedText (handleSelectImage id r) = None) ∧
  (∀ id r, selectedText (handleSelectText id r) = Some id ∧
           selectedImage (handleSelectText id r) = None) ∧
  (∀ cx cy id r,
     selectedImage (handleContextMenu cx cy id "image" r) = Some id ∧
     selectedText (handleContextMenu cx cy id "image" r) = None ∧
     selectedText (handleContextMenu cx cy id "text" r) = Some id ∧
     selectedImage (handleContextMenu cx cy id "text" r) = None).
Proof.
  split; [exact reachable_exclusive | by repeat split].
Qed.

Lemma selection_at_most_one_witness :
  ∃ w,
    run world0 [FileChosen; ImgLoaded 0 bitmap_a;
                ContextMenuImage 0 40 40; MenuAddText;
                ClickText 0; ClickImage 0] = Some w ∧
    reachable w ∧
    selectedImage (cur w) = Some 0 ∧
    (selectedImage (cur w) = None ∨ selectedText (cur w) = None).
Proof.
  eexists.
  match goal with
  | |- ?R = Some ?w ∧ _ =>
      assert (Hrun : R = Some w) by (vm_compute; reflexivity)
  end.
  match type of Hrun with
  | _ = Some ?w =>
      assert (Hreach : reachable w) by exact (run_reachable _ _ _ reach_init Hrun);
      destruct selection_at_most_one as (Hinv & _);
      split; [exact Hrun|]; split; [exact Hreach|];
      split; [reflexivity | exact (Hinv w Hreach)]
  end.
Defined.
